(** * Real-Time Edge Detection Viewer: the native frame-processing core

    A shallow embedding of [app/src/main/cpp/native-lib.cpp] and
    [app/src/main/cpp/opencv_processing.cpp], and the properties of the
    frame gateway [processFrameBytes], the timing query [getProcessingTime]
    and the stand-alone transform [processFrameWithCanny].

    Conventions of the embedding
    - [jint]/[jsize] are 32-bit signed integers: values are [Z] and every
      multiplication of the source is written with its two's complement
      wrap-around ([Int.mul32]).
    - [jbyte]/[unsigned char] are [byte]; the C++ code reinterprets the same
      eight bits, so [xff] is the 255 of OpenCV and the -1 of Java.
    - A [jbyteArray] is a reference into the Java heap, a list of arrays
      indexed by allocation order; a [jstring] likewise refers to one of the
      Java strings created so far.
    - OpenCV is an external library: its entry points are the fields of
      [Cv.Library], over which every definition is parametrised.  A C++
      exception is the [Throw] case of [Cv.result]. *)

From Stdlib Require Import ZArith List Bool Lia String QArith Qround Qminmax.
From Stdlib Require Import Strings.Byte.
From stdpp Require Import base list.
Import ListNotations.
Local Open Scope Z_scope.

(** ** Fixed-width signed integers *)

Module Int.
(** Two's complement reduction of [z] to [bits] bits. *)
Definition wrap (bits : Z) (z : Z) : Z :=
  (z + 2 ^ (bits - 1)) mod 2 ^ bits - 2 ^ (bits - 1).

Definition wrap32 : Z -> Z := wrap 32.

(** [a * b] on two [jint]s, as the compiled code computes it. *)
Definition mul32 (a b : Z) : Z := wrap32 (a * b).

Definition in_range (bits : Z) (z : Z) : Prop :=
  - 2 ^ (bits - 1) <= z < 2 ^ (bits - 1).

(** [a - b] on two 64-bit counts, such as the nanoseconds of two
    [time_point]s. *)
Definition sub64 (a b : Z) : Z := wrap 64 (a - b).
End Int.

(** ** The part of OpenCV the application calls *)

Module Cv.

Inductive MatType := CV_8UC1 | CV_8UC3 | CV_8UC4.

Definition type_channels (t : MatType) : Z :=
  match t with CV_8UC1 => 1 | CV_8UC3 => 3 | CV_8UC4 => 4 end.

(** A matrix header together with the bytes its [data] pointer reaches. *)
Record Mat := mkMat {
  rows : Z;
  cols : Z;
  type : MatType;
  data : list byte
}.

Definition channels (m : Mat) : Z := type_channels (type m).

(** [cv::Mat m(rows, cols, type, ptr)]: a header over memory the caller
    owns; nothing is copied. *)
Definition Mat_over (r c : Z) (t : MatType) (ptr : list byte) : Mat :=
  mkMat r c t ptr.

(** [m.empty()] *)
Definition empty (m : Mat) : bool :=
  (rows m =? 0) || (cols m =? 0) || (Nat.eqb (length (data m)) 0).

Inductive ColorConversionCode :=
| COLOR_RGBA2GRAY | COLOR_GRAY2RGBA
| COLOR_RGBA2BGR | COLOR_BGR2GRAY | COLOR_GRAY2BGR | COLOR_BGR2RGBA.

Record Size := mkSize { size_width : Z; size_height : Z }.

(** [cv::Exception], by its error code. *)
Record Exception := mkException { code : Z }.

Definition StsAssert : Exception := mkException (-215).
Definition StsBadArg : Exception := mkException (-5).
Definition StsNoMem : Exception := mkException (-4).

(** The result of a library call: a value, or a thrown [cv::Exception]. *)
Inductive result (A : Type) :=
| Ok (a : A)
| Throw (e : Exception).
Arguments Ok {A} a.
Arguments Throw {A} e.

Definition bind {A B} (r : result A) (k : A -> result B) : result B :=
  match r with
  | Ok a => k a
  | Throw e => Throw e
  end.

(** The library entry points.  Output arguments of the C++ signatures are
    the result here. *)
Record Library := mkLibrary {
  CV_VERSION : string;
  cvtColor : Mat -> ColorConversionCode -> result Mat;
  GaussianBlur : Mat -> Size -> Q -> result Mat;
  Canny : Mat -> Q -> Q -> result Mat;
  copyTo : Mat -> result Mat
}.

End Cv.

Notation "'try!' x ':=' c1 'in' c2" := (Cv.bind c1 (fun x => c2))
  (at level 10, x name, c1 at level 100, c2 at level 200).

(** ** The part of JNI the application calls *)

Module Jni.

Abbreviation jbyteArray := nat.
Abbreviation jstring := nat.

(** The Java heap: the byte arrays allocated so far. *)
Abbreviation heap := (list (list byte)).

Inductive release_mode := JNI_COPY_BACK | JNI_COMMIT | JNI_ABORT.

(** What the runtime answers during one native call: the two readings of
    the clock (in nanoseconds) and whether its two allocations succeed. *)
Record Env := mkEnv {
  now_start : Z;
  now_end : Z;
  GetByteArrayElements_fails : bool;
  NewByteArray_fails : bool
}.

Definition GetArrayLength (h : heap) (a : jbyteArray) : option Z :=
  match h !! a with
  | Some bs => Some (Z.of_nat (length bs))
  | None => None
  end.

(** The elements of [a] as native memory, or [nullptr]. *)
Definition GetByteArrayElements (env : Env) (h : heap) (a : jbyteArray)
  : option (list byte) :=
  if GetByteArrayElements_fails env then None else h !! a.

(** [NewStringUTF(utf)]: a new Java string holding [utf], added to the
    strings created so far, or [nullptr] when it cannot be allocated. *)
Definition NewStringUTF (fails : bool) (strings : list string)
    (utf : string) : option (jstring * list string) :=
  if fails then None else Some (length strings, strings ++ [utf]).

(** Copy-back happens for every mode but [JNI_ABORT]. *)
Definition ReleaseByteArrayElements (h : heap) (a : jbyteArray)
    (elems : list byte) (mode : release_mode) : heap :=
  match mode with
  | JNI_ABORT => h
  | JNI_COPY_BACK | JNI_COMMIT => <[a := elems]> h
  end.

(** A fresh zero-filled array, or [nullptr] (negative size, or no memory). *)
Definition NewByteArray (env : Env) (h : heap) (size : Z)
  : option (jbyteArray * heap) :=
  if (size <? 0) || NewByteArray_fails env then None
  else Some (length h, h ++ [repeat x00 (Z.to_nat size)]).

(** [SetByteArrayRegion(a, start, len, buf)]: [None] when the region is
    outside the array, or when [buf] holds fewer than [len] bytes and the
    copy would read past it. *)
Definition SetByteArrayRegion (h : heap) (a : jbyteArray)
    (start len : Z) (buf : list byte) : option heap :=
  match h !! a with
  | None => None
  | Some old =>
    if (start <? 0) || (len <? 0)
       || (Z.of_nat (length old) <? start + len)
       || (Z.of_nat (length buf) <? len)
    then None
    else Some (<[a := take (Z.to_nat start) old
                       ++ take (Z.to_nat len) buf
                       ++ drop (Z.to_nat (start + len)) old]> h)
  end.

End Jni.

(** ** Process state *)

Inductive log_message :=
| MsgOpenCVVersion (version : string)
| MsgLengthMismatch (expected got : Z)
| MsgGetElementsFailed
| MsgMatValidationFailed (c r ch : Z)
| MsgApplyingEdgeDetection (width height : Z)
| MsgEdgeDetectionCompleted (c r ch : Z)
| MsgPassthroughMode (width height : Z)
| MsgCreateOutputFailed
| MsgFrameProcessed (ms : Z)
| MsgLegacyProcessFrame
| MsgCannyApplied
| MsgOpenCVException (e : Cv.Exception).

Inductive log_line :=
| LOGI (m : log_message)
| LOGE (m : log_message).

(** [jstrings] are the Java strings the native side has created. *)
Record world := mkWorld {
  heap : Jni.heap;
  jstrings : list string;
  lastProcessingTime : Z;
  logcat : list log_line
}.

Definition log (l : log_line) (w : world) : world :=
  mkWorld (heap w) (jstrings w) (lastProcessingTime w) (logcat w ++ [l]).

Definition with_heap (h : Jni.heap) (w : world) : world :=
  mkWorld h (jstrings w) (lastProcessingTime w) (logcat w).

Definition with_jstrings (strings : list string) (w : world) : world :=
  mkWorld (heap w) strings (lastProcessingTime w) (logcat w).

Definition with_lastProcessingTime (t : Z) (w : world) : world :=
  mkWorld (heap w) (jstrings w) t (logcat w).

(** [static long lastProcessingTime = 0;] over any Java heap. *)
Definition initial_world (h : Jni.heap) : world := mkWorld h [] 0 [].

(** How a native call ends. *)
Inductive outcome (A : Type) :=
| Return (a : A) (w : world)
| Uncaught (e : Cv.Exception) (w : world)
| Undefined.
Arguments Return {A} a w.
Arguments Uncaught {A} e w.
Arguments Undefined {A}.

Definition final_world {A} (o : outcome A) : option world :=
  match o with
  | Return _ w | Uncaught _ w => Some w
  | Undefined => None
  end.

(** [std::chrono::duration_cast<std::chrono::milliseconds>] of a nanosecond
    count: division truncating toward zero. *)
Definition duration_cast_ms (ns : Z) : Z := Z.quot ns 1000000.

(** ** native-lib.cpp *)

Module NativeLib.
Section Platform.

Variable cv : Cv.Library.
(** Width of C++ [long] on the target ABI (32 or 64). *)
Variable long_bits : Z.

(** [NewStringUTF_fails] is what the runtime answers to the allocation of
    the returned string; a [nullptr] from [NewStringUTF] is returned as it
    is. *)
Definition getOpenCVVersion (NewStringUTF_fails : bool) (w : world)
  : option Jni.jstring * world :=
  let version := Cv.CV_VERSION cv in
  let w := log (LOGI (MsgOpenCVVersion version)) w in
  match Jni.NewStringUTF NewStringUTF_fails (jstrings w) version with
  | None => (None, w)
  | Some (s, strings) => (Some s, with_jstrings strings w)
  end.

Definition isOpenCVAvailable (w : world) : bool * world := (true, w).

Definition getProcessingTime (w : world) : Z * world :=
  (lastProcessingTime w, w).

(** STEP 1's right-hand side, [width * height * 4]. *)
Definition expectedLength (width height : Z) : Z :=
  Int.mul32 (Int.mul32 width height) 4.

(** STEP 5.1 to 5.4. *)
Definition edgeDetection (inputMat : Cv.Mat) : Cv.result Cv.Mat :=
  try! grayMat := Cv.cvtColor cv inputMat Cv.COLOR_RGBA2GRAY in
  try! blurredMat := Cv.GaussianBlur cv grayMat (Cv.mkSize 5 5) (3 # 2)%Q in
  try! edgesMat := Cv.Canny cv blurredMat (50 # 1)%Q (150 # 1)%Q in
  Cv.cvtColor cv edgesMat Cv.COLOR_GRAY2RGBA.

(** STEP 5: the value of [outputMat] after the [if]/[else]. *)
Definition transform (applyEdgeDetection : bool) (inputMat : Cv.Mat)
  : Cv.result Cv.Mat :=
  if applyEdgeDetection then edgeDetection inputMat
  else Cv.copyTo cv inputMat.

(** STEP 2 to the end of [processFrameBytes]: what the call does once
    STEP 1 has accepted the length. *)
Definition processAcceptedFrame (env : Jni.Env)
    (imageData : Jni.jbyteArray) (width height : Z)
    (applyEdgeDetection : bool) (w : world)
  : outcome (option Jni.jbyteArray) :=
  match Jni.GetByteArrayElements env (heap w) imageData with
  | None => Return None (log (LOGE MsgGetElementsFailed) w)
  | Some inputBytes =>
  let inputMat := Cv.Mat_over height width Cv.CV_8UC4 inputBytes in
  if negb (Cv.rows inputMat =? height) || negb (Cv.cols inputMat =? width)
     || negb (Cv.channels inputMat =? 4)
  then
    let w := log (LOGE (MsgMatValidationFailed (Cv.cols inputMat)
                          (Cv.rows inputMat) (Cv.channels inputMat))) w in
    Return None
      (with_heap (Jni.ReleaseByteArrayElements (heap w) imageData
                    inputBytes Jni.JNI_ABORT) w)
  else
  let w :=
    if applyEdgeDetection
    then log (LOGI (MsgApplyingEdgeDetection width height)) w
    else log (LOGI (MsgPassthroughMode width height)) w in
  match transform applyEdgeDetection inputMat with
  | Cv.Throw e => Uncaught e w
  | Cv.Ok outputMat =>
  let w :=
    if applyEdgeDetection
    then log (LOGI (MsgEdgeDetectionCompleted (Cv.cols outputMat)
                      (Cv.rows outputMat) (Cv.channels outputMat))) w
    else w in
  let outputSize := Int.mul32 (Int.mul32 height width) 4 in
  match Jni.NewByteArray env (heap w) outputSize with
  | None =>
    let w := log (LOGE MsgCreateOutputFailed) w in
    Return None
      (with_heap (Jni.ReleaseByteArrayElements (heap w) imageData
                    inputBytes Jni.JNI_ABORT) w)
  | Some (outputArray, h) =>
  match Jni.SetByteArrayRegion h outputArray 0 outputSize
          (Cv.data outputMat) with
  | None => Undefined
  | Some h =>
  let w := with_heap (Jni.ReleaseByteArrayElements h imageData
                        inputBytes Jni.JNI_ABORT) w in
  let startTime := Jni.now_start env in
  let endTime := Jni.now_end env in
  let duration := duration_cast_ms (Int.sub64 endTime startTime) in
  let w := with_lastProcessingTime (Int.wrap long_bits duration) w in
  let w := log (LOGI (MsgFrameProcessed (lastProcessingTime w))) w in
  Return (Some outputArray) w
  end end end end.

(** The JNI entry point.  STEP 1 is here; an invalid [imageData]
    reference, like reading past [outputMat.data] at STEP 6, is undefined
    behaviour. *)
Definition processFrameBytes (env : Jni.Env) (imageData : Jni.jbyteArray)
    (width height : Z) (applyEdgeDetection : bool) (w : world)
  : outcome (option Jni.jbyteArray) :=
  match Jni.GetArrayLength (heap w) imageData with
  | None => Undefined
  | Some inputLength =>
    let expected := expectedLength width height in
    if negb (inputLength =? expected) then
      Return None (log (LOGE (MsgLengthMismatch expected inputLength)) w)
    else
      processAcceptedFrame env imageData width height applyEdgeDetection w
  end.

(** The legacy bitmap entry point. *)
Definition processFrame (bitmapIn bitmapOut : nat) (w : world)
  : unit * world :=
  (tt, log (LOGI MsgLegacyProcessFrame) w).

End Platform.
End NativeLib.

(** ** opencv_processing.cpp *)

Module OpenCVProcessing.
Section Platform.

Variable cv : Cv.Library.

(** The body of the [try] block: the new value of [outputMat]. *)
Definition cannyPipeline (inputMat : Cv.Mat) : Cv.result Cv.Mat :=
  try! bgrMat := Cv.cvtColor cv inputMat Cv.COLOR_RGBA2BGR in
  try! grayMat := Cv.cvtColor cv bgrMat Cv.COLOR_BGR2GRAY in
  try! blurredMat := Cv.GaussianBlur cv grayMat (Cv.mkSize 5 5) (3 # 2)%Q in
  let lowThreshold := (50 # 1)%Q in
  let highThreshold := (150 # 1)%Q in
  try! edgesMat := Cv.Canny cv blurredMat lowThreshold highThreshold in
  try! edgesBgr := Cv.cvtColor cv edgesMat Cv.COLOR_GRAY2BGR in
  Cv.cvtColor cv edgesBgr Cv.COLOR_BGR2RGBA.

(** [void processFrameWithCanny(cv::Mat& inputMat, cv::Mat& outputMat)]:
    the new [outputMat] and the lines logged.  The second case is the
    [catch (const cv::Exception& e)] handler, whose own [copyTo] is not
    guarded. *)
Definition processFrameWithCanny (inputMat : Cv.Mat)
  : Cv.result Cv.Mat * list log_line :=
  match cannyPipeline inputMat with
  | Cv.Ok outputMat => (Cv.Ok outputMat, [LOGI MsgCannyApplied])
  | Cv.Throw e => (Cv.copyTo cv inputMat, [LOGI (MsgOpenCVException e)])
  end.

End Platform.
End OpenCVProcessing.

(** ** The native interface as a state machine *)

Inductive call :=
| Call_getOpenCVVersion (NewStringUTF_fails : bool)
| Call_isOpenCVAvailable
| Call_getProcessingTime
| Call_processFrameBytes (env : Jni.Env) (imageData : Jni.jbyteArray)
    (width height : Z) (applyEdgeDetection : bool)
| Call_processFrame (bitmapIn bitmapOut : nat).

(** One call from the Java side; [None] when the process does not survive
    it. *)
Definition exec (cv : Cv.Library) (long_bits : Z) (c : call) (w : world)
  : option world :=
  match c with
  | Call_getOpenCVVersion fails =>
    Some (snd (NativeLib.getOpenCVVersion cv fails w))
  | Call_isOpenCVAvailable => Some (snd (NativeLib.isOpenCVAvailable w))
  | Call_getProcessingTime => Some (snd (NativeLib.getProcessingTime w))
  | Call_processFrameBytes env imageData width height applyEdgeDetection =>
    match NativeLib.processFrameBytes cv long_bits env imageData width height
            applyEdgeDetection w with
    | Return _ w' => Some w'
    | Uncaught _ _ | Undefined => None
    end
  | Call_processFrame bitmapIn bitmapOut =>
    Some (snd (NativeLib.processFrame bitmapIn bitmapOut w))
  end.

Fixpoint run (cv : Cv.Library) (long_bits : Z) (cs : list call) (w : world)
  : option world :=
  match cs with
  | [] => Some w
  | c :: cs' =>
    match exec cv long_bits c w with
    | Some w' => run cv long_bits cs' w'
    | None => None
    end
  end.

(** [c] is a [processFrameBytes] call that runs to its timing step in [w],
    that is, returns an array. *)
Definition reaches_timing_step (cv : Cv.Library) (long_bits : Z) (c : call)
    (w : world) : Prop :=
  match c with
  | Call_processFrameBytes env imageData width height applyEdgeDetection =>
    exists outputArray w',
      NativeLib.processFrameBytes cv long_bits env imageData width height
        applyEdgeDetection w = Return (Some outputArray) w'
  | _ => False
  end.

(** The world in which the call ends when the transform has produced
    [outputMat] and the output array has been filled. *)
Definition completed_world (long_bits : Z) (env : Jni.Env)
    (applyEdgeDetection : bool) (width height : Z) (outputMat : Cv.Mat)
    (w : world) : world :=
  let ms := Int.wrap long_bits
              (duration_cast_ms
                 (Int.sub64 (Jni.now_end env) (Jni.now_start env))) in
  mkWorld
    (heap w ++ [take (Z.to_nat (NativeLib.expectedLength width height))
                  (Cv.data outputMat)])
    (jstrings w)
    ms
    (logcat w
     ++ (if applyEdgeDetection
         then [LOGI (MsgApplyingEdgeDetection width height);
               LOGI (MsgEdgeDetectionCompleted (Cv.cols outputMat)
                       (Cv.rows outputMat) (Cv.channels outputMat))]
         else [LOGI (MsgPassthroughMode width height)])
     ++ [LOGI (MsgFrameProcessed ms)]).

(** Every way a [processFrameBytes] call can end, with what it leaves
    behind. *)
Inductive ending (cv : Cv.Library) (long_bits : Z) (env : Jni.Env)
    (imageData : Jni.jbyteArray) (width height : Z)
    (applyEdgeDetection : bool) (w : world)
  : outcome (option Jni.jbyteArray) -> Prop :=
| ends_undefined :
    ending cv long_bits env imageData width height applyEdgeDetection w
      Undefined
| ends_null w' :
    heap w' = heap w ->
    lastProcessingTime w' = lastProcessingTime w ->
    ending cv long_bits env imageData width height applyEdgeDetection w
      (Return None w')
| ends_uncaught e w' :
    heap w' = heap w ->
    lastProcessingTime w' = lastProcessingTime w ->
    ending cv long_bits env imageData width height applyEdgeDetection w
      (Uncaught e w')
| ends_array (bytes : list byte) outputMat :
    heap w !! imageData = Some bytes ->
    Z.of_nat (length bytes) = NativeLib.expectedLength width height ->
    Jni.GetByteArrayElements_fails env = false ->
    Jni.NewByteArray_fails env = false ->
    NativeLib.transform cv applyEdgeDetection
      (Cv.Mat_over height width Cv.CV_8UC4 bytes) = Cv.Ok outputMat ->
    NativeLib.expectedLength width height
      <= Z.of_nat (length (Cv.data outputMat)) ->
    ending cv long_bits env imageData width height applyEdgeDetection w
      (Return (Some (length (heap w)))
         (completed_world long_bits env applyEdgeDetection width height
            outputMat w)).

(** [imageData] refers to a [width] x [height] RGBA frame: positive
    dimensions, four bytes per pixel, and a length that is a [jsize], as that
    of every Java array. *)
Definition valid_frame (w : world) (imageData : Jni.jbyteArray)
    (width height : Z) (bytes : list byte) : Prop :=
  heap w !! imageData = Some bytes /\
  0 < width /\ 0 < height /\
  Z.of_nat (length bytes) = width * height * 4 /\
  Z.of_nat (length bytes) < 2 ^ 31.

(** Both allocations of the call succeed. *)
Definition allocations_succeed (env : Jni.Env) : Prop :=
  Jni.GetByteArrayElements_fails env = false /\
  Jni.NewByteArray_fails env = false.

(** The clock of one call is steady: the second reading is not before the
    first, the nanoseconds between them fit 64 bits and the milliseconds
    fit a [long]. *)
Definition steady_clock (long_bits : Z) (env : Jni.Env) : Prop :=
  0 <= Jni.now_end env - Jni.now_start env < 2 ^ 63 /\
  duration_cast_ms (Jni.now_end env - Jni.now_start env)
    < 2 ^ (long_bits - 1).

Definition call_steady (long_bits : Z) (c : call) : Prop :=
  match c with
  | Call_processFrameBytes env _ _ _ _ => steady_clock long_bits env
  | _ => True
  end.

(** ** What the library documents, as far as the application relies on it *)

Module CvLaws.
Import Cv.

(** A non-empty continuous matrix: [rows * cols] pixels of
    [channels] bytes. *)
Definition well_formed (m : Mat) : Prop :=
  0 < rows m /\ 0 < cols m /\
  Z.of_nat (length (data m)) = rows m * cols m * channels m.

(** [g] is a single-channel image of the size of [m]. *)
Definition gray_of_size (m g : Mat) : Prop :=
  rows g = rows m /\ cols g = cols m /\ type g = CV_8UC1 /\
  Z.of_nat (length (data g)) = rows m * cols m.

(** Every pixel of [m] is [p]. *)
Definition uniform (p : list byte) (m : Mat) : Prop :=
  data m = concat (repeat p (Z.to_nat (rows m * cols m))).

Definition binary (v : byte) : Prop := v = x00 \/ v = xff.

(** Modelled from the spec: OpenCV's [cv::cvtColor] is not part of the
    sources.  Recolouring is "replicating the scalar value into all three
    color channels and setting alpha to a fixed opaque value" (4.2, step 4);
    the opaque value of an 8-bit channel is 255. *)
Definition gray2rgba (y : byte) : list byte := [y; y; y; xff].

Section Laws.
Variable cv : Library.

(** Modelled from the spec: OpenCV's [cv::Mat::copyTo] is not part of the
    sources.  It makes "a full deep copy of the input view" (4.1, step 4). *)
Definition copyTo_copies : Prop :=
  forall m, well_formed m -> copyTo cv m = Ok m.

(** Modelled from the spec: OpenCV's [cv::cvtColor] is not part of the
    sources.  Colour reduction yields "a single-channel intensity image", "of
    the same width/height as the input" (3 and 4.2, step 1). *)
Definition rgba2gray_size : Prop :=
  forall m, well_formed m -> type m = CV_8UC4 ->
    exists g, cvtColor cv m COLOR_RGBA2GRAY = Ok g /\ gray_of_size m g.

(** Modelled from the spec: the intensity is a "channel-wise weighted sum
    dropping alpha" (4.2, step 1), so pixels of one colour get one
    intensity. *)
Definition rgba2gray_pointwise : Prop :=
  forall m g r gr b a, well_formed m -> type m = CV_8UC4 ->
    uniform [r; gr; b; a] m ->
    cvtColor cv m COLOR_RGBA2GRAY = Ok g ->
    exists y, uniform [y] g.

(** Modelled from the spec: OpenCV's [cv::GaussianBlur] is not part of the
    sources.  Noise suppression yields "a smoothed single-channel image of
    the same dimensions" (4.2, step 2). *)
Definition blur_size : Prop :=
  forall m, well_formed m -> type m = CV_8UC1 ->
    exists b, GaussianBlur cv m (mkSize 5 5) (3 # 2)%Q = Ok b /\
              gray_of_size m b.

(** Modelled from the spec: the blur is a weighted average over "a 5x5
    kernel" (4.2, step 2) whose weights sum to one, so that "a flat-color
    image has no gradients" (8, property 6) after it either. *)
Definition blur_constant : Prop :=
  forall m b y, well_formed m -> type m = CV_8UC1 ->
    uniform [y] m ->
    GaussianBlur cv m (mkSize 5 5) (3 # 2)%Q = Ok b ->
    uniform [y] b.

(** Modelled from the spec: OpenCV's [cv::Canny] is not part of the
    sources.  Edge extraction yields "a binary single-channel edge map where
    each pixel is either 0 (no edge) or 255 (edge)" (4.2, step 3), of the
    size of its input. *)
Definition canny_binary : Prop :=
  forall m, well_formed m -> type m = CV_8UC1 ->
    exists e, Canny cv m (50 # 1)%Q (150 # 1)%Q = Ok e /\
              gray_of_size m e /\ Forall binary (data e).

(** Modelled from the spec: the detector is "gradient-based" with a low
    threshold of 50 (4.2, step 3), so an image without gradients has no
    edge. *)
Definition canny_constant : Prop :=
  forall m e y, well_formed m -> type m = CV_8UC1 ->
    uniform [y] m ->
    Canny cv m (50 # 1)%Q (150 # 1)%Q = Ok e ->
    uniform [x00] e.

(** Modelled from the spec: recolouring applies [gray2rgba] to every
    intensity and keeps "same width/height as input" (4.2, step 4). *)
Definition gray2rgba_replicates : Prop :=
  forall m, well_formed m -> type m = CV_8UC1 ->
    cvtColor cv m COLOR_GRAY2RGBA
    = Ok (mkMat (rows m) (cols m) CV_8UC4 (flat_map gray2rgba (data m))).
End Laws.
End CvLaws.

(** ** A reference instance of the library

    Modelled from the spec: OpenCV is not part of the sources.  An
    executable 8-bit instance of [Cv.Library] for the recipe of 4.2:
    luma-weighted grayscale in fixed point, the 5x5 Gaussian of standard
    deviation 1.5 in 8-bit fixed point with reflected borders, and a
    dual-threshold gradient-based detector (3x3 Sobel gradient, L1
    magnitude, non-maximum suppression, hysteresis).  It shows the laws
    above to be satisfiable and lets the gateway be run on concrete
    frames. *)

Module RefCv.
Import Cv.

Definition u8 (b : byte) : Z := Z.of_N (Byte.to_N b).

(** [cv::saturate_cast<uchar>] *)
Definition saturate_cast (z : Z) : byte :=
  match Byte.of_N (Z.to_N (Z.min 255 (Z.max 0 z))) with
  | Some b => b
  | None => xff
  end.

Definition sumZ (l : list Z) : Z := fold_right Z.add 0 l.

(** [rows * cols] values, pixel [(y, x)] at index [y * cols + x]. *)
Definition tabulate {A} (r c : Z) (f : Z -> Z -> A) : list A :=
  map (fun i => f (Z.of_nat i / c) (Z.of_nat i mod c))
      (seq 0 (Z.to_nat (r * c))).

Definition inside (r c y x : Z) : bool :=
  (0 <=? y) && (y <? r) && (0 <=? x) && (x <? c).

(** Intensity of a single-channel image at [(y, x)]. *)
Definition at1 (m : Mat) (y x : Z) : Z :=
  u8 (nth (Z.to_nat (y * cols m + x)) (data m) x00).

(** *** Colour conversion *)

Fixpoint map4 (f : byte -> byte -> byte -> byte -> list byte)
    (l : list byte) : list byte :=
  match l with
  | c0 :: c1 :: c2 :: c3 :: l' => f c0 c1 c2 c3 ++ map4 f l'
  | _ => []
  end.

Fixpoint map3 (f : byte -> byte -> byte -> list byte) (l : list byte)
  : list byte :=
  match l with
  | c0 :: c1 :: c2 :: l' => f c0 c1 c2 ++ map3 f l'
  | _ => []
  end.

(** Y = 0.299 R + 0.587 G + 0.114 B in 14-bit fixed point. *)
Definition luma (r g b : byte) : byte :=
  saturate_cast
    (Z.shiftr (u8 r * 4899 + u8 g * 9617 + u8 b * 1868 + 8192) 14).

Definition cvtColor (m : Mat) (code : ColorConversionCode) : result Mat :=
  if empty m then Throw StsAssert
  else
    let dst t d := Ok (mkMat (rows m) (cols m) t d) in
    match code, type m with
    | COLOR_RGBA2GRAY, CV_8UC4 =>
      dst CV_8UC1 (map4 (fun r g b _ => [luma r g b]) (data m))
    | COLOR_GRAY2RGBA, CV_8UC1 =>
      dst CV_8UC4 (flat_map CvLaws.gray2rgba (data m))
    | COLOR_RGBA2BGR, CV_8UC4 =>
      dst CV_8UC3 (map4 (fun r g b _ => [b; g; r]) (data m))
    | COLOR_BGR2GRAY, CV_8UC3 =>
      dst CV_8UC1 (map3 (fun b g r => [luma r g b]) (data m))
    | COLOR_GRAY2BGR, CV_8UC1 =>
      dst CV_8UC3 (flat_map (fun y => [y; y; y]) (data m))
    | COLOR_BGR2RGBA, CV_8UC3 =>
      dst CV_8UC4 (map3 (fun b g r => [r; g; b; xff]) (data m))
    | _, _ => Throw StsAssert
    end.

(** *** Gaussian blur *)

(** [BORDER_REFLECT_101]: [gfedcb|abcdefgh|gfedcba]. *)
Definition reflect101 (i n : Z) : Z :=
  if n <=? 1 then 0
  else
    let period := 2 * (n - 1) in
    let q := i mod period in
    if q <? n then q else period - q.

(** Offsets and 8-bit fixed-point weights (sum 256) of the 5-tap kernel of
    standard deviation 1.5. *)
Definition taps5 : list (Z * Z) :=
  [(-2, 31); (-1, 60); (0, 74); (1, 60); (2, 31)].

Definition conv5 (f : Z -> Z) : Z :=
  sumZ (map (fun t => snd t * f (fst t)) taps5).

Definition blur_at (m : Mat) (y x : Z) : byte :=
  let tap dy dx :=
    at1 m (reflect101 (y + dy) (rows m)) (reflect101 (x + dx) (cols m)) in
  saturate_cast (Z.shiftr (conv5 (fun dy => conv5 (tap dy)) + 32768) 16).

Definition GaussianBlur (m : Mat) (ksize : Size) (sigma : Q) : result Mat :=
  if empty m then Throw StsAssert
  else
    match type m with
    | CV_8UC1 =>
      if (size_width ksize =? 5) && (size_height ksize =? 5)
         && Qeq_bool sigma (3 # 2)
      then Ok (mkMat (rows m) (cols m) CV_8UC1
                 (tabulate (rows m) (cols m) (blur_at m)))
      else Throw StsBadArg
    | _ => Throw StsBadArg
    end.

(** *** Canny *)

(** [BORDER_REPLICATE]: [aaaaaa|abcdefgh|hhhhhhh]. *)
Definition replicate (i n : Z) : Z := Z.max 0 (Z.min (n - 1) i).

Definition src (m : Mat) (y x : Z) : Z :=
  at1 m (replicate y (rows m)) (replicate x (cols m)).

Definition sobel_dx (m : Mat) (y x : Z) : Z :=
  (src m (y - 1) (x + 1) + 2 * src m y (x + 1) + src m (y + 1) (x + 1))
  - (src m (y - 1) (x - 1) + 2 * src m y (x - 1) + src m (y + 1) (x - 1)).

Definition sobel_dy (m : Mat) (y x : Z) : Z :=
  (src m (y + 1) (x - 1) + 2 * src m (y + 1) x + src m (y + 1) (x + 1))
  - (src m (y - 1) (x - 1) + 2 * src m (y - 1) x + src m (y - 1) (x + 1)).

(** L1 gradient magnitude, zero outside the image. *)
Definition magnitude (m : Mat) (y x : Z) : Z :=
  if inside (rows m) (cols m) y x
  then Z.abs (sobel_dx m y x) + Z.abs (sobel_dy m y x)
  else 0.

(** tan(22.5 degrees) in 15-bit fixed point. *)
Definition TG22 : Z := 13573.

(** Non-maximum suppression along the quantised gradient direction. *)
Definition local_maximum (m : Mat) (y x : Z) : bool :=
  let xs := sobel_dx m y x in
  let ys := sobel_dy m y x in
  let mg := magnitude m y x in
  let ax := Z.abs xs in
  let ay := Z.abs ys * 32768 in
  let tg22x := ax * TG22 in
  if ay <? tg22x then
    (magnitude m y (x - 1) <? mg) && (magnitude m y (x + 1) <=? mg)
  else
    let tg67x := tg22x + ax * 65536 in
    if tg67x <? ay then
      (magnitude m (y - 1) x <? mg) && (magnitude m (y + 1) x <=? mg)
    else
      let s := if xs * ys <? 0 then -1 else 1 in
      (magnitude m (y - 1) (x - s) <? mg)
      && (magnitude m (y + 1) (x + s) <? mg).

Definition candidate (m : Mat) (low : Z) (y x : Z) : bool :=
  (low <? magnitude m y x) && local_maximum m y x.

Definition strong (m : Mat) (low high : Z) (y x : Z) : bool :=
  candidate m low y x && (high <? magnitude m y x).

Definition mask_at (r c : Z) (e : list bool) (y x : Z) : bool :=
  inside r c y x && nth (Z.to_nat (y * c + x)) e false.

Definition neighbours : list (Z * Z) :=
  [(-1, -1); (-1, 0); (-1, 1); (0, -1); (0, 1); (1, -1); (1, 0); (1, 1)].

(** One round of hysteresis: a candidate next to an edge is an edge. *)
Definition grow (m : Mat) (low : Z) (e : list bool) : list bool :=
  tabulate (rows m) (cols m) (fun y x =>
    mask_at (rows m) (cols m) e y x
    || (candidate m low y x
        && existsb (fun d =>
                      mask_at (rows m) (cols m) e (y + fst d) (x + snd d))
                   neighbours)).

Definition hysteresis (m : Mat) (low high : Z) : list bool :=
  Nat.iter (Z.to_nat (rows m * cols m)) (grow m low)
    (tabulate (rows m) (cols m) (strong m low high)).

Definition Canny (m : Mat) (threshold1 threshold2 : Q) : result Mat :=
  if empty m then Throw StsAssert
  else
    match type m with
    | CV_8UC1 =>
      let low := Qfloor (Qmin threshold1 threshold2) in
      let high := Qfloor (Qmax threshold1 threshold2) in
      Ok (mkMat (rows m) (cols m) CV_8UC1
            (map (fun edge : bool => if edge then xff else x00)
                 (hysteresis m low high)))
    | _ => Throw StsAssert
    end.

Definition copyTo (m : Mat) : result Mat := Ok m.

Definition library : Library :=
  mkLibrary "4.9.0" cvtColor GaussianBlur Canny copyTo.

(** The same library at a moment when the blur cannot allocate its
    destination. *)
Definition library_out_of_memory : Library :=
  mkLibrary "4.9.0" cvtColor (fun _ _ _ => Throw StsNoMem) Canny copyTo.

End RefCv.

(** ** Example frames *)

Definition red_pixel : list byte := [xff; x00; x00; xff].

(** The 4x4 all-red frame. *)
Definition red_4x4 : list byte := concat (repeat red_pixel 16).

(** A 6x6 frame, left half black and right half white. *)
Definition step_6x6 : list byte :=
  concat (repeat (concat (repeat [x00; x00; x00; xff] 3)
                  ++ concat (repeat [xff; xff; xff; xff] 3)) 6).

Definition quiet_env : Jni.Env := Jni.mkEnv 1000000 8500000 false false.

(** Version query, a rejected frame, a processed frame, the legacy entry
    point and the time query, in turn. *)
Definition sample_session : list call :=
  [Call_getOpenCVVersion false;
   Call_processFrameBytes quiet_env 0%nat 3 3 false;
   Call_processFrameBytes quiet_env 0%nat 4 4 true;
   Call_processFrame 0%nat 0%nat;
   Call_getProcessingTime].


(** ** Colour conversions through BGR

    [processFrameWithCanny] goes from RGBA to gray, and from gray back to
    RGBA, through a BGR image.  OpenCV documents BGR and RGBA as orderings of
    the same channels and one set of luma weights, so each detour equals the
    direct conversion that [processFrameBytes] asks for. *)

Module CvColourLaws.
Import Cv.

Definition gray_via_bgr (cv : Library) : Prop :=
  forall m, CvLaws.well_formed m -> type m = CV_8UC4 ->
    (try! bgrMat := cvtColor cv m COLOR_RGBA2BGR in
     cvtColor cv bgrMat COLOR_BGR2GRAY)
    = cvtColor cv m COLOR_RGBA2GRAY.

Definition rgba_via_bgr (cv : Library) : Prop :=
  forall m, CvLaws.well_formed m -> type m = CV_8UC1 ->
    (try! edgesBgr := cvtColor cv m COLOR_GRAY2BGR in
     cvtColor cv edgesBgr COLOR_BGR2RGBA)
    = cvtColor cv m COLOR_GRAY2RGBA.

End CvColourLaws.

(** ** Sessions *)

Definition is_frame_call (c : call) : bool :=
  match c with
  | Call_processFrameBytes _ _ _ _ _ => true
  | _ => false
  end.


(** The line logged when STEP 5 is entered. *)
Definition mode_line (applyEdgeDetection : bool) (width height : Z)
  : log_line :=
  if applyEdgeDetection
  then LOGI (MsgApplyingEdgeDetection width height)
  else LOGI (MsgPassthroughMode width height).

Definition is_info (l : log_line) : bool :=
  match l with LOGI _ => true | LOGE _ => false end.

(** The world in which a call ends when [NewByteArray] fails after the
    transform has produced [outputMat]. *)
Definition allocation_failed_world (applyEdgeDetection : bool)
    (width height : Z) (outputMat : Cv.Mat) (w : world) : world :=
  mkWorld (heap w) (jstrings w) (lastProcessingTime w)
    (logcat w
     ++ (if applyEdgeDetection
         then [LOGI (MsgApplyingEdgeDetection width height);
               LOGI (MsgEdgeDetectionCompleted (Cv.cols outputMat)
                       (Cv.rows outputMat) (Cv.channels outputMat))]
         else [LOGI (MsgPassthroughMode width height)])
     ++ [LOGE MsgCreateOutputFailed]).

(** A clock that is not read, and allocations that succeed. *)
Definition still_env : Jni.Env := Jni.mkEnv 0 0 false false.

(** Queries and the legacy entry point only. *)
Definition query_session : list call :=
  [Call_getProcessingTime; Call_getOpenCVVersion true;
   Call_processFrame 3%nat 7%nat; Call_isOpenCVAvailable;
   Call_getOpenCVVersion false; Call_getProcessingTime].

(** A clock whose second reading is 7.5 ms before the first. *)
Definition backward_env : Jni.Env := Jni.mkEnv 8500000 1000000 false false.

(** A clock whose readings are more than [2 ^ 63] ns apart. *)
Definition far_apart_env : Jni.Env :=
  Jni.mkEnv (- 2 ^ 63) 1000000 false false.

(** * Properties *)

(** ** Wrap-around arithmetic *)

Lemma wrap_in_range bits z :
  0 < bits -> Int.in_range bits z -> Int.wrap bits z = z.
Proof.
  unfold Int.wrap, Int.in_range. intros Hbits [Hlo Hhi].
  assert (Hpow : 2 ^ bits = 2 * 2 ^ (bits - 1)).
  { rewrite <- Z.pow_succ_r by lia. f_equal. lia. }
  rewrite Z.mod_small; lia.
Qed.

Lemma wrap32_in_range z : - 2 ^ 31 <= z < 2 ^ 31 -> Int.wrap32 z = z.
Proof. intros H. apply wrap_in_range; [lia | exact H]. Qed.

(** Wrapping before or after a further multiplication is the same. *)
Lemma wrap32_mul_l a b : Int.wrap32 (Int.wrap32 a * b) = Int.wrap32 (a * b).
Proof.
  unfold Int.wrap32, Int.wrap. f_equal.
  change (2 ^ (32 - 1)) with 2147483648.
  change (2 ^ 32) with 4294967296.
  rewrite (Z.mod_eq (a + 2147483648) 4294967296) by lia.
  set (q := (a + 2147483648) / 4294967296).
  replace ((a + 2147483648 - 4294967296 * q - 2147483648) * b + 2147483648)
    with (a * b + 2147483648 + (- q * b) * 4294967296) by ring.
  apply Z_mod_plus_full.
Qed.

Lemma expectedLength_wrap width height :
  NativeLib.expectedLength width height = Int.wrap32 (width * height * 4).
Proof. unfold NativeLib.expectedLength, Int.mul32. apply wrap32_mul_l. Qed.

(** STEP 6 computes the same number as STEP 1. *)
Lemma outputSize_expectedLength width height :
  Int.mul32 (Int.mul32 height width) 4 = NativeLib.expectedLength width height.
Proof.
  unfold NativeLib.expectedLength, Int.mul32. now rewrite (Z.mul_comm height).
Qed.

Lemma expectedLength_exact width height :
  0 <= width * height * 4 < 2 ^ 31 ->
  NativeLib.expectedLength width height = width * height * 4.
Proof. intros H. rewrite expectedLength_wrap. apply wrap32_in_range. lia. Qed.

(** ** JNI arrays *)

Lemma GetArrayLength_Some (h : Jni.heap) (a : Jni.jbyteArray) (bs : list byte) :
  h !! a = Some bs -> Jni.GetArrayLength h a = Some (Z.of_nat (length bs)).
Proof. unfold Jni.GetArrayLength. now intros ->. Qed.

(** Allocating the output array and filling it from [buf]. *)
Lemma NewByteArray_then_Set env (h : Jni.heap) size (buf : list byte) :
  Jni.NewByteArray_fails env = false ->
  0 <= size <= Z.of_nat (length buf) ->
  Jni.NewByteArray env h size
    = Some (length h, h ++ [repeat x00 (Z.to_nat size)]) /\
  Jni.SetByteArrayRegion (h ++ [repeat x00 (Z.to_nat size)]) (length h)
      0 size buf
    = Some (h ++ [take (Z.to_nat size) buf]).
Proof.
  intros Hok [Hlo Hhi]. split.
  - unfold Jni.NewByteArray. rewrite Hok.
    destruct (size <? 0) eqn:E; [apply Z.ltb_lt in E; lia | reflexivity].
  - unfold Jni.SetByteArrayRegion. rewrite list_lookup_middle by reflexivity.
    rewrite repeat_length, Z2Nat.id by lia.
    replace (0 <? 0) with false by reflexivity.
    destruct (size <? 0) eqn:E1; [apply Z.ltb_lt in E1; lia |].
    destruct (size <? 0 + size) eqn:E2; [apply Z.ltb_lt in E2; lia |].
    destruct (Z.of_nat (length buf) <? size) eqn:E3;
      [apply Z.ltb_lt in E3; lia |].
    cbn [orb]. f_equal.
    replace (length h) with (length h + 0)%nat at 1 by lia.
    rewrite insert_app_r. cbn [insert list_insert]. f_equal. f_equal.
    change (Z.to_nat 0) with 0%nat. rewrite take_0, Z.add_0_l.
    rewrite drop_ge by (rewrite repeat_length; lia).
    now rewrite app_nil_r.
Qed.

(** ** The gateway, for any library *)

Section Gateway.

Variable cv : Cv.Library.
Variable long_bits : Z.


(** STEP 4 never fires: the header just built reports what was asked. *)
Lemma mat_validation_passes height width (inputBytes : list byte) :
  let inputMat := Cv.Mat_over height width Cv.CV_8UC4 inputBytes in
  negb (Cv.rows inputMat =? height) || negb (Cv.cols inputMat =? width)
  || negb (Cv.channels inputMat =? 4) = false.
Proof. cbn. now rewrite !Z.eqb_refl. Qed.

(** STEP 1 rejects exactly the lengths that differ from
    [expectedLength]. *)
Lemma step1_rejects env imageData width height applyEdgeDetection w
    (bytes : list byte) :
  heap w !! imageData = Some bytes ->
  Z.of_nat (length bytes) <> NativeLib.expectedLength width height ->
  NativeLib.processFrameBytes cv long_bits env imageData width height
    applyEdgeDetection w
  = Return None
      (log (LOGE (MsgLengthMismatch
                    (NativeLib.expectedLength width height)
                    (Z.of_nat (length bytes)))) w).
Proof.
  intros Hlive Hne. unfold NativeLib.processFrameBytes.
  rewrite (GetArrayLength_Some _ _ _ Hlive). cbn zeta.
  now apply Z.eqb_neq in Hne as ->.
Qed.

Lemma step1_accepts env imageData width height applyEdgeDetection w
    (bytes : list byte) :
  heap w !! imageData = Some bytes ->
  Z.of_nat (length bytes) = NativeLib.expectedLength width height ->
  NativeLib.processFrameBytes cv long_bits env imageData width height
    applyEdgeDetection w
  = NativeLib.processAcceptedFrame cv long_bits env imageData width height
      applyEdgeDetection w.
Proof.
  intros Hlive Heq. unfold NativeLib.processFrameBytes.
  rewrite (GetArrayLength_Some _ _ _ Hlive). cbn zeta.
  now apply Z.eqb_eq in Heq as ->.
Qed.

(** The successful path, STEP 1 to the return. *)
Lemma processFrameBytes_completes env imageData width height
    applyEdgeDetection w (bytes : list byte) outputMat :
  heap w !! imageData = Some bytes ->
  Z.of_nat (length bytes) = NativeLib.expectedLength width height ->
  Jni.GetByteArrayElements_fails env = false ->
  Jni.NewByteArray_fails env = false ->
  NativeLib.transform cv applyEdgeDetection
    (Cv.Mat_over height width Cv.CV_8UC4 bytes) = Cv.Ok outputMat ->
  NativeLib.expectedLength width height
    <= Z.of_nat (length (Cv.data outputMat)) ->
  NativeLib.processFrameBytes cv long_bits env imageData width height
    applyEdgeDetection w
  = Return (Some (length (heap w)))
      (completed_world long_bits env applyEdgeDetection width height
         outputMat w).
Proof.
  intros Hlive Hlen Helems Hnew Htr Hdata.
  rewrite (step1_accepts _ _ _ _ _ _ _ Hlive Hlen).
  unfold NativeLib.processAcceptedFrame, Jni.GetByteArrayElements.
  rewrite Helems, Hlive. cbn zeta.
  rewrite mat_validation_passes, Htr, outputSize_expectedLength.
  assert (Hsize : 0 <= NativeLib.expectedLength width height
                  <= Z.of_nat (length (Cv.data outputMat))) by lia.
  destruct applyEdgeDetection; cbn [heap log with_heap].
  all: destruct (NewByteArray_then_Set env (heap w) _ _ Hnew Hsize)
         as [-> ->].
  all: unfold completed_world, with_heap, with_lastProcessingTime, log;
    cbn; now rewrite <- ?app_assoc.
Qed.

End Gateway.

Lemma NewByteArray_inv env (h h' : Jni.heap) size (a : Jni.jbyteArray) :
  Jni.NewByteArray env h size = Some (a, h') ->
  Jni.NewByteArray_fails env = false /\ 0 <= size /\
  a = length h /\ h' = h ++ [repeat x00 (Z.to_nat size)].
Proof.
  unfold Jni.NewByteArray. intros H.
  destruct (size <? 0) eqn:Esize; [discriminate |].
  destruct (Jni.NewByteArray_fails env); [discriminate |].
  cbn in H. injection H as <- <-. apply Z.ltb_ge in Esize. auto.
Qed.

Lemma SetByteArrayRegion_fresh_inv (h h' : Jni.heap) size (buf : list byte) :
  0 <= size ->
  Jni.SetByteArrayRegion (h ++ [repeat x00 (Z.to_nat size)]) (length h)
    0 size buf = Some h' ->
  size <= Z.of_nat (length buf) /\ h' = h ++ [take (Z.to_nat size) buf].
Proof.
  intros Hsize H.
  assert (Hle : size <= Z.of_nat (length buf)).
  { unfold Jni.SetByteArrayRegion in H.
    rewrite list_lookup_middle in H by reflexivity.
    destruct (Z.of_nat (length buf) <? size) eqn:E.
    - rewrite !orb_true_r in H. discriminate.
    - now apply Z.ltb_ge in E. }
  split; [exact Hle |].
  (* the region was written from a long enough buffer: the forward lemma
     applies, whatever the allocator's answer was *)
  destruct (NewByteArray_then_Set (Jni.mkEnv 0 0 false false) h size buf
              eq_refl (conj Hsize Hle)) as [_ Hset].
  rewrite Hset in H. now injection H.
Qed.

Lemma processFrameBytes_ending cv long_bits env imageData width height
    applyEdgeDetection w :
  ending cv long_bits env imageData width height applyEdgeDetection w
    (NativeLib.processFrameBytes cv long_bits env imageData width height
       applyEdgeDetection w).
Proof.
  unfold NativeLib.processFrameBytes, Jni.GetArrayLength.
  destruct (heap w !! imageData) as [bytes |] eqn:Hlive; [| constructor].
  cbn zeta.
  destruct (Z.of_nat (length bytes) =? NativeLib.expectedLength width height)
    eqn:Hlen; cbn [negb]; [| now constructor].
  apply Z.eqb_eq in Hlen.
  unfold NativeLib.processAcceptedFrame, Jni.GetByteArrayElements.
  destruct (Jni.GetByteArrayElements_fails env) eqn:Helems;
    [now constructor |].
  rewrite Hlive. cbn zeta. rewrite mat_validation_passes.
  destruct (NativeLib.transform cv applyEdgeDetection _) as [outputMat | e]
    eqn:Htr; [| destruct applyEdgeDetection; now constructor].
  rewrite outputSize_expectedLength.
  destruct applyEdgeDetection; cbn [heap log with_heap].
  all: destruct (Jni.NewByteArray env (heap w) _) as [[a h'] |] eqn:Hnew;
    [| now constructor].
  all: apply NewByteArray_inv in Hnew as (Hok & Hsize & -> & ->).
  all: destruct (Jni.SetByteArrayRegion _ _ 0 _ _) as [h'' |] eqn:Hset;
    [| constructor].
  all: apply SetByteArrayRegion_fresh_inv in Hset as [Hbuf ->];
    [| exact Hsize].
  all: match goal with
       | |- ending _ _ _ _ _ _ ?b _ (Return _ ?W) =>
         replace W
           with (completed_world long_bits env b width height outputMat w)
       end.
  all: try (now apply ends_array with (bytes := bytes)).
  all: unfold completed_world, with_heap, with_lastProcessingTime, log;
    cbn; now rewrite <- ?app_assoc.
Qed.

(** A call that ends, ends over a heap that only grew. *)
Lemma processFrameBytes_heap_grows cv long_bits env imageData width height
    applyEdgeDetection w w' :
  final_world (NativeLib.processFrameBytes cv long_bits env imageData width
                 height applyEdgeDetection w) = Some w' ->
  exists fresh : Jni.heap, heap w' = heap w ++ fresh.
Proof.
  intros Hfinal.
  destruct (processFrameBytes_ending cv long_bits env imageData width height
              applyEdgeDetection w)
    as [| v Hheap _ | e v Hheap _ | bytes outputMat _ _ _ _ _ _];
    cbn in Hfinal; try discriminate; injection Hfinal as <-.
  - exists []. now rewrite app_nil_r.
  - exists []. now rewrite app_nil_r.
  - eexists. reflexivity.
Qed.

(** An array is returned only when both allocations succeeded, and it is the
    newest array of the heap. *)
Lemma returned_array_inv cv long_bits env imageData width height
    applyEdgeDetection w (outputArray : Jni.jbyteArray) w' :
  NativeLib.processFrameBytes cv long_bits env imageData width height
    applyEdgeDetection w = Return (Some outputArray) w' ->
  Jni.GetByteArrayElements_fails env = false /\
  Jni.NewByteArray_fails env = false /\
  outputArray = length (heap w).
Proof.
  intros Hcall.
  pose proof (processFrameBytes_ending cv long_bits env imageData width
                height applyEdgeDetection w) as Hend.
  rewrite Hcall in Hend.
  inversion Hend as [| | | bytes outputMat _ _ Helems Hnew _ _]. auto.
Qed.

(** ** The transform of opencv_processing.cpp recovers from a failure *)

Lemma processFrameWithCanny_falls_back cv inputMat e :
  OpenCVProcessing.cannyPipeline cv inputMat = Cv.Throw e ->
  OpenCVProcessing.processFrameWithCanny cv inputMat
  = (Cv.copyTo cv inputMat, [LOGI (MsgOpenCVException e)]).
Proof.
  intros H. unfold OpenCVProcessing.processFrameWithCanny. now rewrite H.
Qed.

(** With a [copyTo] that copies, it never lets an exception out. *)
Lemma processFrameWithCanny_no_throw cv inputMat :
  CvLaws.copyTo_copies cv -> CvLaws.well_formed inputMat ->
  exists outputMat,
    fst (OpenCVProcessing.processFrameWithCanny cv inputMat)
    = Cv.Ok outputMat.
Proof.
  intros Hcopy Hwf. unfold OpenCVProcessing.processFrameWithCanny.
  destruct (OpenCVProcessing.cannyPipeline cv inputMat) as [out | e].
  - now exists out.
  - exists inputMat. cbn. now apply Hcopy.
Qed.

(** ** Failures, the input array and STEP 1 *)

(** C1 (violated by [processFrameBytes]).  When a step of the recipe throws
    while [applyEdgeDetection] is set, [processFrameBytes] has no handler:
    the exception leaves the JNI frame, no array is returned and no copy of
    the input is made.  (The handler with the fallback exists only in
    [processFrameWithCanny], which [processFrameBytes] does not call; see
    [processFrameWithCanny_falls_back].) *)
Theorem recipe_failure_escapes_processFrameBytes cv long_bits env imageData
    width height w (bytes : list byte) e :
  heap w !! imageData = Some bytes ->
  Z.of_nat (length bytes) = NativeLib.expectedLength width height ->
  Jni.GetByteArrayElements_fails env = false ->
  NativeLib.edgeDetection cv (Cv.Mat_over height width Cv.CV_8UC4 bytes)
    = Cv.Throw e ->
  NativeLib.processFrameBytes cv long_bits env imageData width height true w
  = Uncaught e (log (LOGI (MsgApplyingEdgeDetection width height)) w).
Proof.
  intros Hlive Hlen Helems Hthrow.
  rewrite (step1_accepts cv long_bits env imageData width height true w bytes
             Hlive Hlen).
  unfold NativeLib.processAcceptedFrame, Jni.GetByteArrayElements.
  rewrite Helems, Hlive. cbn zeta.
  rewrite mat_validation_passes. unfold NativeLib.transform.
  now rewrite Hthrow.
Qed.

(** The empty frame, on which [cvtColor] refuses its empty source; and the
    4x4 red frame when the blur runs out of memory. *)
Lemma recipe_failure_escapes_processFrameBytes_witness :
  NativeLib.processFrameBytes RefCv.library 64 quiet_env 0%nat 0 0 true
    (initial_world [[]])
  = Uncaught Cv.StsAssert
      (log (LOGI (MsgApplyingEdgeDetection 0 0)) (initial_world [[]])) /\
  NativeLib.processFrameBytes RefCv.library_out_of_memory 64 quiet_env 0%nat
    4 4 true (initial_world [red_4x4])
  = Uncaught Cv.StsNoMem
      (log (LOGI (MsgApplyingEdgeDetection 4 4)) (initial_world [red_4x4])).
Proof.
  split.
  - apply (recipe_failure_escapes_processFrameBytes RefCv.library 64
             quiet_env 0%nat 0 0 (initial_world [[]]) [] Cv.StsAssert);
      reflexivity.
  - apply (recipe_failure_escapes_processFrameBytes
             RefCv.library_out_of_memory 64 quiet_env 0%nat 4 4
             (initial_world [red_4x4]) red_4x4 Cv.StsNoMem);
      reflexivity.
Defined.



(** C7.  Whatever the mode and however the call ends, the array passed as
    [imageData] holds afterwards what it held before, as does every other
    array that existed. *)
Theorem input_buffer_never_mutated cv long_bits env imageData width height
    applyEdgeDetection w w' :
  final_world (NativeLib.processFrameBytes cv long_bits env imageData width
                 height applyEdgeDetection w) = Some w' ->
  heap w' !! imageData = heap w !! imageData /\
  (forall (a : Jni.jbyteArray) (bytes : list byte),
      heap w !! a = Some bytes -> heap w' !! a = Some bytes).
Proof.
  intros Hfinal.
  assert (Hkept : forall (a : Jni.jbyteArray) (bytes : list byte),
             heap w !! a = Some bytes -> heap w' !! a = Some bytes).
  { destruct (processFrameBytes_heap_grows _ _ _ _ _ _ _ _ _ Hfinal)
      as [fresh ->].
    intros a bytes Ha. now apply lookup_app_l_Some. }
  split; [| exact Hkept].
  destruct (heap w !! imageData) as [bytes |] eqn:Hlive.
  - now apply Hkept.
  - (* a dangling reference: the call has no defined ending *)
    unfold NativeLib.processFrameBytes, Jni.GetArrayLength in Hfinal.
    rewrite Hlive in Hfinal. discriminate.
Qed.

(** The 4x4 red frame, edge detection on. *)
Lemma input_buffer_never_mutated_witness :
  exists w',
    final_world (NativeLib.processFrameBytes RefCv.library 64 quiet_env
                   0%nat 4 4 true (initial_world [red_4x4])) = Some w' /\
    heap w' !! 0%nat = Some red_4x4.
Proof.
  eexists. split.
  - vm_compute. reflexivity.
  - refine (proj1 (input_buffer_never_mutated RefCv.library 64 quiet_env
                     0%nat 4 4 true (initial_world [red_4x4]) _ _)).
    vm_compute. reflexivity.
Defined.

(** C9.  STEP 1 compares the length with [width * height * 4] reduced to 32
    bits and checks no sign: a call is rejected exactly when the length
    differs from that wrapped product, and goes on to STEP 2 otherwise.  So
    there are non-positive dimensions, and positive dimensions whose product
    overflows, that pass with a buffer of the wrapped length. *)
Theorem step1_wraps_and_ignores_sign :
  (forall width height,
      NativeLib.expectedLength width height
      = Int.wrap 32 (width * height * 4)) /\
  (forall cv long_bits env imageData width height applyEdgeDetection w
          (bytes : list byte),
      heap w !! imageData = Some bytes ->
      (Z.of_nat (length bytes) = Int.wrap 32 (width * height * 4) ->
       NativeLib.processFrameBytes cv long_bits env imageData width height
         applyEdgeDetection w
       = NativeLib.processAcceptedFrame cv long_bits env imageData width
           height applyEdgeDetection w) /\
      (Z.of_nat (length bytes) <> Int.wrap 32 (width * height * 4) ->
       NativeLib.processFrameBytes cv long_bits env imageData width height
         applyEdgeDetection w
       = Return None
           (log (LOGE (MsgLengthMismatch
                         (Int.wrap 32 (width * height * 4))
                         (Z.of_nat (length bytes)))) w))) /\
  (exists width height (bytes : list byte),
      width <= 0 /\ height <= 0 /\
      Z.of_nat (length bytes) = Int.wrap 32 (width * height * 4)) /\
  (exists width height (bytes : list byte),
      0 < width < 2 ^ 31 /\ 0 < height < 2 ^ 31 /\
      Z.of_nat (length bytes) <> width * height * 4 /\
      Z.of_nat (length bytes) = Int.wrap 32 (width * height * 4)).
Proof.
  split; [exact expectedLength_wrap |].
  split; [| split].
  - intros cv long_bits env imageData width height applyEdgeDetection w bytes
      Hlive.
    rewrite <- expectedLength_wrap. split; intros Hlen.
    + now apply step1_accepts with (bytes := bytes).
    + now apply step1_rejects.
  - exists (-1), (-1), red_pixel. repeat split; first [lia | reflexivity].
  - exists 32768, 32768, [].
    repeat split; first [lia | reflexivity | cbn; lia].
Qed.

(** A 4-byte buffer declared as -1 x -1, and an empty buffer declared as
    32768 x 32768, both go on to STEP 2. *)
Lemma step1_wraps_and_ignores_sign_witness :
  NativeLib.processFrameBytes RefCv.library 64 quiet_env 0%nat (-1) (-1)
    false (initial_world [red_pixel])
  = NativeLib.processAcceptedFrame RefCv.library 64 quiet_env 0%nat (-1) (-1)
      false (initial_world [red_pixel]) /\
  NativeLib.processFrameBytes RefCv.library 64 quiet_env 0%nat 32768 32768
    true (initial_world [[]])
  = NativeLib.processAcceptedFrame RefCv.library 64 quiet_env 0%nat 32768
      32768 true (initial_world [[]]).
Proof.
  split.
  - apply (proj1 (proj1 (proj2 step1_wraps_and_ignores_sign) RefCv.library
                    64 quiet_env 0%nat (-1) (-1) false
                    (initial_world [red_pixel]) red_pixel eq_refl)).
    reflexivity.
  - apply (proj1 (proj1 (proj2 step1_wraps_and_ignores_sign) RefCv.library
                    64 quiet_env 0%nat 32768 32768 true
                    (initial_world [[]]) [] eq_refl)).
    reflexivity.
Defined.

(** ** The timing query *)

Lemma elapsed_fits long_bits env :
  0 < long_bits -> steady_clock long_bits env ->
  0 <= Int.wrap long_bits
         (duration_cast_ms
            (Int.sub64 (Jni.now_end env) (Jni.now_start env))).
Proof.
  intros Hbits [Hsteady Hfits].
  unfold Int.sub64. rewrite (wrap_in_range 64) by (unfold Int.in_range; lia).
  assert (Hpos : 0 <= duration_cast_ms (Jni.now_end env - Jni.now_start env))
    by (apply Z.quot_pos; lia).
  rewrite wrap_in_range; [exact Hpos | exact Hbits |].
  unfold Int.in_range. split; [| exact Hfits].
  pose proof (Z.pow_pos_nonneg 2 (long_bits - 1) ltac:(lia) ltac:(lia)). lia.
Qed.

(** One call keeps the stored time non-negative. *)
Lemma exec_keeps_nonnegative cv long_bits c w w' :
  0 < long_bits -> call_steady long_bits c ->
  0 <= lastProcessingTime w ->
  exec cv long_bits c w = Some w' ->
  0 <= lastProcessingTime w'.
Proof.
  intros Hbits Hsteady Hpos Hexec.
  destruct c
    as [[|] | | | env imageData width height applyEdgeDetection
       | bin bout];
    cbn in Hexec; try (injection Hexec as <-; exact Hpos).
  pose proof (processFrameBytes_ending cv long_bits env imageData width
                height applyEdgeDetection w) as Hend.
  destruct (NativeLib.processFrameBytes cv long_bits env imageData width
              height applyEdgeDetection w) as [r v | e v |];
    try discriminate.
  injection Hexec as ->.
  inversion Hend as [| v Hheap Htime | | bytes outputMat _ _ _ _ _ _]; subst.
  - now rewrite Htime.
  - cbn. now apply elapsed_fits.
Qed.

Lemma run_keeps_nonnegative cv long_bits cs :
  0 < long_bits -> Forall (call_steady long_bits) cs ->
  forall w w', 0 <= lastProcessingTime w ->
    run cv long_bits cs w = Some w' -> 0 <= lastProcessingTime w'.
Proof.
  intros Hbits Hsteady. induction Hsteady as [| c cs Hc _ IH];
    intros w w' Hpos Hrun; cbn in Hrun.
  - now injection Hrun as <-.
  - destruct (exec cv long_bits c w) as [v |] eqn:Hexec; [| discriminate].
    apply (IH v w'); [| exact Hrun].
    now apply (exec_keeps_nonnegative cv long_bits c w v).
Qed.

(** C8, as the code has it.  [getProcessingTime] changes nothing; it
    answers 0 before any frame; only a [processFrameBytes] call that returns
    an array, hence reaches the timing step, changes its answer; and after
    any sequence of calls it answers a non-negative number provided that, in
    each [processFrameBytes] call, the second clock reading is not before
    the first, the nanoseconds between them fit 64 bits and their whole
    milliseconds fit a [long]. *)
Theorem getProcessingTime_pure_and_nonnegative cv long_bits :
  0 < long_bits ->
  (forall w, snd (NativeLib.getProcessingTime w) = w) /\
  (forall h, fst (NativeLib.getProcessingTime (initial_world h)) = 0) /\
  (forall h cs w,
      Forall (call_steady long_bits) cs ->
      run cv long_bits cs (initial_world h) = Some w ->
      0 <= fst (NativeLib.getProcessingTime w)) /\
  (forall c w w',
      exec cv long_bits c w = Some w' ->
      fst (NativeLib.getProcessingTime w')
        <> fst (NativeLib.getProcessingTime w) ->
      reaches_timing_step cv long_bits c w).
Proof.
  intros Hbits. repeat split.
  - intros h cs w Hsteady Hrun. cbn.
    now apply (run_keeps_nonnegative cv long_bits cs Hbits Hsteady
                 (initial_world h) w).
  - intros c w w' Hexec Hchanged. cbn in Hchanged.
    destruct c
      as [[|] | | | env imageData width height applyEdgeDetection
       | bin bout];
      cbn in Hexec; try (injection Hexec as <-; now contradiction Hchanged).
    cbn.
    pose proof (processFrameBytes_ending cv long_bits env imageData width
                  height applyEdgeDetection w) as Hend.
    destruct (NativeLib.processFrameBytes cv long_bits env imageData width
                height applyEdgeDetection w) as [r v | e v |];
      try discriminate.
    injection Hexec as ->.
    inversion Hend as [| v Hheap Htime | | bytes outputMat _ _ _ _ _ _];
      subst.
    + now contradiction Hchanged.
    + eauto.
Qed.

Lemma getProcessingTime_pure_and_nonnegative_witness :
  exists w,
    run RefCv.library 64 sample_session (initial_world [red_4x4]) = Some w /\
    0 <= fst (NativeLib.getProcessingTime w).
Proof.
  eexists. split.
  - vm_compute. reflexivity.
  - refine (proj1 (proj2 (proj2
              (getProcessingTime_pure_and_nonnegative RefCv.library 64 _)))
              [red_4x4] sample_session _ _ _).
    + reflexivity.
    + repeat constructor; vm_compute; discriminate.
    + vm_compute. reflexivity.
Defined.

(** C8 as stated fails: the answer is not always non-negative.  After one
    passthrough frame whose second clock reading is 7.5 ms before the first,
    [getProcessingTime] answers -7; after one whose readings are
    [2 ^ 63 + 1000000] ns apart, the 64-bit difference has wrapped and it
    answers -9223372036853. *)
Lemma getProcessingTime_can_be_negative :
  (exists w,
      run RefCv.library 64
        [Call_processFrameBytes backward_env 0%nat 4 4 false]
        (initial_world [red_4x4]) = Some w /\
      fst (NativeLib.getProcessingTime w) = -7) /\
  (exists w,
      run RefCv.library 64
        [Call_processFrameBytes far_apart_env 0%nat 4 4 false]
        (initial_world [red_4x4]) = Some w /\
      fst (NativeLib.getProcessingTime w) = -9223372036853) /\
  ~ (forall cs w,
        run RefCv.library 64 cs (initial_world [red_4x4]) = Some w ->
        0 <= fst (NativeLib.getProcessingTime w)).
Proof.
  split; [| split].
  - eexists. split; vm_compute; reflexivity.
  - eexists. split; vm_compute; reflexivity.
  - intros Halways.
    specialize (Halways
                  [Call_processFrameBytes backward_env 0%nat 4 4 false]
                  _ eq_refl).
    vm_compute in Halways. now apply Halways.
Qed.

(** ** Valid frames *)

Lemma valid_frame_expectedLength w imageData width height
    (bytes : list byte) :
  valid_frame w imageData width height bytes ->
  Z.of_nat (length bytes) = NativeLib.expectedLength width height.
Proof.
  intros (_ & Hw & Hh & Hlen & Hjsize). rewrite expectedLength_exact; lia.
Qed.

Lemma valid_frame_well_formed w imageData width height (bytes : list byte) :
  valid_frame w imageData width height bytes ->
  CvLaws.well_formed (Cv.Mat_over height width Cv.CV_8UC4 bytes).
Proof.
  intros (_ & Hw & Hh & Hlen & _). unfold CvLaws.well_formed. cbn. lia.
Qed.

(** A call whose transform yields [outputMat], large enough to fill the
    output array: it returns, with an array when both allocations succeed,
    and a returned array is new and holds the bytes of [outputMat]. *)
Lemma call_with_transform cv long_bits env imageData width height
    applyEdgeDetection w (bytes : list byte) outputMat :
  heap w !! imageData = Some bytes ->
  Z.of_nat (length bytes) = NativeLib.expectedLength width height ->
  NativeLib.transform cv applyEdgeDetection
    (Cv.Mat_over height width Cv.CV_8UC4 bytes) = Cv.Ok outputMat ->
  NativeLib.expectedLength width height
    <= Z.of_nat (length (Cv.data outputMat)) ->
  let call :=
    NativeLib.processFrameBytes cv long_bits env imageData width height
      applyEdgeDetection w in
  (exists r w', call = Return r w' /\
                (allocations_succeed env -> r <> None)) /\
  (forall (outputArray : Jni.jbyteArray) w',
      call = Return (Some outputArray) w' ->
      outputArray = length (heap w) /\
      heap w' = heap w ++ [take (Z.to_nat (NativeLib.expectedLength width
                                              height))
                             (Cv.data outputMat)]).
Proof.
  intros Hlive Hlen Htr Hbuf call.
  assert (Hdone : allocations_succeed env ->
            call = Return (Some (length (heap w)))
                     (completed_world long_bits env applyEdgeDetection
                        width height outputMat w)).
  { intros [Helems Hnew]. subst call.
    now apply processFrameBytes_completes with (bytes := bytes). }
  split.
  - destruct (Jni.GetByteArrayElements_fails env) eqn:Helems.
    { subst call. rewrite (step1_accepts _ _ _ _ _ _ _ _ _ Hlive Hlen).
      unfold NativeLib.processAcceptedFrame, Jni.GetByteArrayElements.
      rewrite Helems. do 2 eexists. split; [reflexivity |].
      intros [? _]. congruence. }
    destruct (Jni.NewByteArray_fails env) eqn:Hnew.
    { subst call. rewrite (step1_accepts _ _ _ _ _ _ _ _ _ Hlive Hlen).
      unfold NativeLib.processAcceptedFrame, Jni.GetByteArrayElements,
        Jni.NewByteArray.
      rewrite Helems, Hlive, Hnew. cbn zeta.
      rewrite mat_validation_passes, Htr, orb_true_r.
      do 2 eexists. split; [reflexivity |]. intros [_ ?]. congruence. }
    do 2 eexists. split; [now apply Hdone |]. intros _. discriminate.
  - intros outputArray w' Hcall.
    destruct (returned_array_inv _ _ _ _ _ _ _ _ _ _ Hcall)
      as (Helems & Hnew & ->).
    rewrite (Hdone (conj Helems Hnew)) in Hcall. injection Hcall as <-.
    split; reflexivity.
Qed.

(** C3.  Passthrough of a valid frame returns; it returns an array when both
    allocations succeed; and the array returned is a new one, distinct from
    the input array, holding the input bytes in the same order (the input
    array still holds them too). *)
Theorem passthrough_is_exact_copy cv long_bits env imageData width height w
    (bytes : list byte) :
  CvLaws.copyTo_copies cv ->
  valid_frame w imageData width height bytes ->
  let call :=
    NativeLib.processFrameBytes cv long_bits env imageData width height
      false w in
  (exists r w', call = Return r w' /\
                (allocations_succeed env -> r <> None)) /\
  (forall (outputArray : Jni.jbyteArray) w',
      call = Return (Some outputArray) w' ->
      outputArray <> imageData /\
      heap w' !! outputArray = Some bytes /\
      heap w' !! imageData = Some bytes).
Proof.
  intros Hcopy Hvalid call.
  pose proof (valid_frame_expectedLength _ _ _ _ _ Hvalid) as Hexp.
  pose proof (valid_frame_well_formed _ _ _ _ _ Hvalid) as Hwf.
  destruct Hvalid as (Hlive & Hw & Hh & Hlen & Hjsize).
  destruct (call_with_transform cv long_bits env imageData width height
              false w bytes (Cv.Mat_over height width Cv.CV_8UC4 bytes)
              Hlive Hexp (Hcopy _ Hwf) ltac:(cbn; lia))
    as [Hreturns Harray].
  split; [exact Hreturns |].
  intros outputArray w' Hcall.
  destruct (Harray outputArray w' Hcall) as [-> ->]. cbn [Cv.data Cv.Mat_over].
  split; [| split].
  - apply lookup_lt_Some in Hlive. lia.
  - rewrite list_lookup_middle by reflexivity. f_equal. apply take_ge. lia.
  - now apply lookup_app_l_Some.
Qed.

(** The 2x2 scenario of the specification. *)
Lemma passthrough_is_exact_copy_witness :
  let frame := concat (repeat red_pixel 4) in
  let call :=
    NativeLib.processFrameBytes RefCv.library 64 quiet_env 0%nat 2 2 false
      (initial_world [frame]) in
  (exists r w', call = Return r w' /\
                (allocations_succeed quiet_env -> r <> None)) /\
  (forall (outputArray : Jni.jbyteArray) w',
      call = Return (Some outputArray) w' ->
      outputArray <> 0%nat /\
      heap w' !! outputArray = Some frame /\
      heap w' !! 0%nat = Some frame).
Proof.
  apply (passthrough_is_exact_copy RefCv.library 64 quiet_env 0%nat 2 2
           (initial_world [concat (repeat red_pixel 4)])
           (concat (repeat red_pixel 4))).
  - intros m _. reflexivity.
  - repeat split; reflexivity.
Defined.

(** ** The recipe on a valid frame *)

Lemma gray_of_size_well_formed m g :
  CvLaws.well_formed m -> CvLaws.gray_of_size m g ->
  CvLaws.well_formed g /\ Cv.type g = Cv.CV_8UC1.
Proof.
  intros (Hr & Hc & _) (Hgr & Hgc & Hgt & Hglen).
  unfold CvLaws.well_formed, Cv.channels. rewrite Hgr, Hgc, Hgt. cbn.
  repeat split; lia.
Qed.

Lemma gray_of_size_trans m g b :
  CvLaws.gray_of_size m g -> CvLaws.gray_of_size g b ->
  CvLaws.gray_of_size m b.
Proof.
  intros (Hgr & Hgc & _ & _) (Hbr & Hbc & Hbt & Hblen).
  unfold CvLaws.gray_of_size. rewrite Hbr, Hbc, Hbt, Hblen, Hgr, Hgc. auto.
Qed.

Lemma length_flat_map_gray2rgba (edges : list byte) :
  length (flat_map CvLaws.gray2rgba edges) = (4 * length edges)%nat.
Proof. induction edges as [| y edges IH]; cbn in *; lia. Qed.

(** Pixel [i] of the recoloured image is [(y, y, y, 255)] for the [i]-th
    intensity [y]. *)
Lemma lookup_flat_map_gray2rgba (edges : list byte) (i : nat) y :
  edges !! i = Some y ->
  let out := flat_map CvLaws.gray2rgba edges in
  out !! (4 * i)%nat = Some y /\ out !! (4 * i + 1)%nat = Some y /\
  out !! (4 * i + 2)%nat = Some y /\ out !! (4 * i + 3)%nat = Some xff.
Proof.
  revert i. induction edges as [| y0 edges IH]; intros i Hi; [discriminate |].
  destruct i as [| i].
  - cbn in Hi. injection Hi as ->. cbn. auto.
  - cbn in Hi. specialize (IH i Hi). cbn zeta in IH.
    replace (4 * S i)%nat with (S (S (S (S (4 * i))))) by lia.
    exact IH.
Qed.

Section Recipe.

Variable cv : Cv.Library.
Hypothesis Hgray : CvLaws.rgba2gray_size cv.
Hypothesis Hblur : CvLaws.blur_size cv.
Hypothesis Hcanny : CvLaws.canny_binary cv.
Hypothesis Hrgba : CvLaws.gray2rgba_replicates cv.

(** STEP 5.1 to 5.4 on a well-formed RGBA image: the edge map of 0 and 255,
    recoloured. *)
Lemma edgeDetection_output inputMat :
  CvLaws.well_formed inputMat -> Cv.type inputMat = Cv.CV_8UC4 ->
  exists grayMat blurredMat edgesMat,
    Cv.cvtColor cv inputMat Cv.COLOR_RGBA2GRAY = Cv.Ok grayMat /\
    Cv.GaussianBlur cv grayMat (Cv.mkSize 5 5) (3 # 2)%Q
      = Cv.Ok blurredMat /\
    Cv.Canny cv blurredMat (50 # 1)%Q (150 # 1)%Q = Cv.Ok edgesMat /\
    CvLaws.gray_of_size inputMat grayMat /\
    CvLaws.gray_of_size inputMat blurredMat /\
    CvLaws.gray_of_size inputMat edgesMat /\
    Forall CvLaws.binary (Cv.data edgesMat) /\
    NativeLib.edgeDetection cv inputMat
    = Cv.Ok (Cv.mkMat (Cv.rows inputMat) (Cv.cols inputMat) Cv.CV_8UC4
               (flat_map CvLaws.gray2rgba (Cv.data edgesMat))).
Proof.
  intros Hwf Htype.
  destruct (Hgray inputMat Hwf Htype) as (g & Hg & Hgsize).
  destruct (gray_of_size_well_formed _ _ Hwf Hgsize) as [Hgwf Hgtype].
  destruct (Hblur g Hgwf Hgtype) as (b & Hb & Hbsize).
  destruct (gray_of_size_well_formed _ _ Hgwf Hbsize) as [Hbwf Hbtype].
  destruct (Hcanny b Hbwf Hbtype) as (e & He & Hesize & Hbin).
  destruct (gray_of_size_well_formed _ _ Hbwf Hesize) as [Hewf Hetype].
  pose proof (gray_of_size_trans _ _ _ Hgsize Hbsize) as Hbsize'.
  pose proof (gray_of_size_trans _ _ _ Hbsize' Hesize) as Hesize'.
  exists g, b, e. repeat (split; [assumption |]).
  unfold NativeLib.edgeDetection. rewrite Hg. cbn [Cv.bind].
  rewrite Hb. cbn [Cv.bind]. rewrite He. cbn [Cv.bind].
  rewrite (Hrgba e Hewf Hetype).
  destruct Hesize' as (-> & -> & _). reflexivity.
Qed.

(** The whole call on a valid frame with edge detection on: it returns,
    with an array when both allocations succeed, and a returned array holds
    a recoloured edge map of 0 and 255, one intensity per pixel. *)
Lemma edge_frame_call long_bits env imageData width height w
    (bytes : list byte) :
  valid_frame w imageData width height bytes ->
  let call :=
    NativeLib.processFrameBytes cv long_bits env imageData width height
      true w in
  (exists r w', call = Return r w' /\
                (allocations_succeed env -> r <> None)) /\
  (forall (outputArray : Jni.jbyteArray) w',
      call = Return (Some outputArray) w' ->
      exists edges : list byte,
        Forall CvLaws.binary edges /\
        Z.of_nat (length edges) = width * height /\
        heap w' !! outputArray = Some (flat_map CvLaws.gray2rgba edges)).
Proof.
  intros Hvalid call.
  pose proof (valid_frame_expectedLength _ _ _ _ _ Hvalid) as Hexp.
  pose proof (valid_frame_well_formed _ _ _ _ _ Hvalid) as Hwf.
  destruct Hvalid as (Hlive & Hw & Hh & Hlen & Hjsize).
  destruct (edgeDetection_output _ Hwf eq_refl)
    as (g & b & e & _ & _ & _ & _ & _ & Hesize & Hbin & Hout).
  destruct Hesize as (_ & _ & _ & Helen). cbn in Helen.
  destruct (call_with_transform cv long_bits env imageData width height
              true w bytes _ Hlive Hexp Hout
              ltac:(cbn [Cv.data]; rewrite length_flat_map_gray2rgba; lia))
    as [Hreturns Harray].
  split; [exact Hreturns |].
  intros outputArray w' Hcall.
  destruct (Harray outputArray w' Hcall) as [-> ->]. cbn [Cv.data].
  exists (Cv.data e). split; [exact Hbin |]. split; [lia |].
  rewrite list_lookup_middle by reflexivity. f_equal.
  apply take_ge. rewrite length_flat_map_gray2rgba. lia.
Qed.

End Recipe.

(** ** The reference instance satisfies the laws *)

Lemma saturate_cast_u8 (b : byte) : RefCv.saturate_cast (RefCv.u8 b) = b.
Proof. destruct b; reflexivity. Qed.

Lemma concat_repeat_singleton {A} (y : A) n :
  concat (repeat [y] n) = repeat y n.
Proof. induction n as [| n IH]; cbn; [reflexivity | now rewrite IH]. Qed.

Lemma map_seq_constant {A} (g : nat -> A) v n :
  forall s, (forall i, (s <= i < s + n)%nat -> g i = v) ->
  map g (seq s n) = repeat v n.
Proof.
  induction n as [| n IH]; intros s Hg; cbn; [reflexivity |].
  rewrite Hg by lia. f_equal. apply IH. intros i Hi. apply Hg. lia.
Qed.

Lemma length_tabulate {A} r c (f : Z -> Z -> A) :
  length (RefCv.tabulate r c f) = Z.to_nat (r * c).
Proof. unfold RefCv.tabulate. now rewrite length_map, length_seq. Qed.

(** A function constant on the image tabulates to a constant image. *)
Lemma tabulate_constant {A} r c (f : Z -> Z -> A) v :
  0 < c ->
  (forall y x, 0 <= y < r -> 0 <= x < c -> f y x = v) ->
  RefCv.tabulate r c f = repeat v (Z.to_nat (r * c)).
Proof.
  intros Hc Hf. unfold RefCv.tabulate. apply map_seq_constant.
  intros i Hi. apply Hf.
  - split; [apply Z.div_pos; lia |].
    apply Z.div_lt_upper_bound; [lia |]. rewrite Z.mul_comm. lia.
  - apply Z.mod_pos_bound. lia.
Qed.

Lemma well_formed_not_empty m : CvLaws.well_formed m -> Cv.empty m = false.
Proof.
  intros (Hr & Hc & Hlen). unfold Cv.empty.
  assert (Hch : 0 < Cv.channels m)
    by (unfold Cv.channels; destruct (Cv.type m); reflexivity).
  destruct (Cv.rows m =? 0) eqn:E1; [apply Z.eqb_eq in E1; lia |].
  destruct (Cv.cols m =? 0) eqn:E2; [apply Z.eqb_eq in E2; lia |].
  destruct (length (Cv.data m)) eqn:E3; [| reflexivity].
  cbn in Hlen. nia.
Qed.

Lemma length_map4_singleton (f : byte -> byte -> byte -> byte -> byte)
    (l : list byte) n :
  length l = (4 * n)%nat ->
  length (RefCv.map4 (fun c0 c1 c2 c3 => [f c0 c1 c2 c3]) l) = n.
Proof.
  revert l. induction n as [| n IH]; intros l Hlen.
  - now destruct l.
  - destruct l as [| c0 [| c1 [| c2 [| c3 l]]]]; cbn in Hlen; try lia.
    cbn. f_equal. apply IH. lia.
Qed.

Lemma map4_uniform (f : byte -> byte -> byte -> byte -> byte) c0 c1 c2 c3 n :
  RefCv.map4 (fun c0 c1 c2 c3 => [f c0 c1 c2 c3])
    (concat (repeat [c0; c1; c2; c3] n))
  = repeat (f c0 c1 c2 c3) n.
Proof. induction n as [| n IH]; cbn; [reflexivity | now rewrite IH]. Qed.

Lemma ref_copyTo_copies : CvLaws.copyTo_copies RefCv.library.
Proof. intros m _. reflexivity. Qed.

Lemma ref_rgba2gray m :
  CvLaws.well_formed m -> Cv.type m = Cv.CV_8UC4 ->
  Cv.cvtColor RefCv.library m Cv.COLOR_RGBA2GRAY
  = Cv.Ok (Cv.mkMat (Cv.rows m) (Cv.cols m) Cv.CV_8UC1
             (RefCv.map4 (fun r g b _ => [RefCv.luma r g b]) (Cv.data m))).
Proof.
  intros Hwf Htype. cbn. unfold RefCv.cvtColor.
  now rewrite (well_formed_not_empty m Hwf), Htype.
Qed.

Lemma ref_rgba2gray_size : CvLaws.rgba2gray_size RefCv.library.
Proof.
  intros m Hwf Htype. eexists. split; [now apply ref_rgba2gray |].
  unfold CvLaws.gray_of_size. cbn. repeat split.
  destruct Hwf as (Hr & Hc & Hlen). unfold Cv.channels in Hlen.
  rewrite Htype in Hlen. cbn in Hlen.
  rewrite (length_map4_singleton (fun r g b _ => RefCv.luma r g b) _
             (Z.to_nat (Cv.rows m * Cv.cols m))); lia.
Qed.

Lemma ref_rgba2gray_pointwise : CvLaws.rgba2gray_pointwise RefCv.library.
Proof.
  intros m g r gr b a Hwf Htype Huni Hg.
  rewrite (ref_rgba2gray m Hwf Htype) in Hg. injection Hg as <-.
  exists (RefCv.luma r gr b). unfold CvLaws.uniform in *. cbn.
  rewrite Huni, concat_repeat_singleton.
  apply (map4_uniform (fun r g b _ => RefCv.luma r g b)).
Qed.

Lemma ref_gray2rgba_replicates : CvLaws.gray2rgba_replicates RefCv.library.
Proof.
  intros m Hwf Htype. cbn. unfold RefCv.cvtColor.
  now rewrite (well_formed_not_empty m Hwf), Htype.
Qed.

Lemma reflect101_range i n : 0 < n -> 0 <= RefCv.reflect101 i n < n.
Proof.
  intros Hn. unfold RefCv.reflect101.
  destruct (n <=? 1) eqn:E; [lia |]. apply Z.leb_gt in E.
  pose proof (Z.mod_pos_bound i (2 * (n - 1)) ltac:(lia)) as Hq.
  destruct (i mod (2 * (n - 1)) <? n) eqn:E'.
  - apply Z.ltb_lt in E'. lia.
  - apply Z.ltb_ge in E'. lia.
Qed.

Lemma replicate_range i n : 0 < n -> 0 <= RefCv.replicate i n < n.
Proof. unfold RefCv.replicate. lia. Qed.

(** Reading a constant single-channel image inside its bounds. *)
Lemma at1_constant m v y x :
  Cv.data m = repeat v (Z.to_nat (Cv.rows m * Cv.cols m)) ->
  0 <= y < Cv.rows m -> 0 <= x < Cv.cols m ->
  RefCv.at1 m y x = RefCv.u8 v.
Proof.
  intros Hdata Hy Hx. unfold RefCv.at1. rewrite Hdata. f_equal.
  apply nth_repeat_lt. nia.
Qed.

Lemma ref_GaussianBlur m :
  CvLaws.well_formed m -> Cv.type m = Cv.CV_8UC1 ->
  Cv.GaussianBlur RefCv.library m (Cv.mkSize 5 5) (3 # 2)%Q
  = Cv.Ok (Cv.mkMat (Cv.rows m) (Cv.cols m) Cv.CV_8UC1
             (RefCv.tabulate (Cv.rows m) (Cv.cols m) (RefCv.blur_at m))).
Proof.
  intros Hwf Htype. cbn. unfold RefCv.GaussianBlur.
  now rewrite (well_formed_not_empty m Hwf), Htype.
Qed.

Lemma ref_blur_size : CvLaws.blur_size RefCv.library.
Proof.
  intros m Hwf Htype. eexists. split; [now apply ref_GaussianBlur |].
  unfold CvLaws.gray_of_size. cbn. repeat split.
  rewrite length_tabulate. destruct Hwf as (Hr & Hc & _). nia.
Qed.

(** The weights sum to 256 in each direction. *)
Lemma blur_at_constant m v y x :
  0 < Cv.rows m -> 0 < Cv.cols m ->
  Cv.data m = repeat v (Z.to_nat (Cv.rows m * Cv.cols m)) ->
  RefCv.blur_at m y x = v.
Proof.
  intros Hr Hc Hdata. unfold RefCv.blur_at, RefCv.conv5. cbn.
  repeat rewrite (at1_constant m v) by
    (try exact Hdata; apply reflect101_range; assumption).
  transitivity (RefCv.saturate_cast (RefCv.u8 v));
    [| apply saturate_cast_u8].
  f_equal.
  rewrite Z.shiftr_div_pow2 by lia.
  symmetry. apply Z.div_unique with (r := 32768); [| ring].
  left. change (2 ^ 16) with 65536. lia.
Qed.

Lemma ref_blur_constant : CvLaws.blur_constant RefCv.library.
Proof.
  intros m b y Hwf Htype Huni Hb.
  rewrite (ref_GaussianBlur m Hwf Htype) in Hb. injection Hb as <-.
  unfold CvLaws.uniform in *. cbn. rewrite concat_repeat_singleton in *.
  destruct Hwf as (Hr & Hc & _).
  apply tabulate_constant; [exact Hc |].
  intros yy xx _ _. now apply blur_at_constant.
Qed.

Lemma ref_Canny m :
  CvLaws.well_formed m -> Cv.type m = Cv.CV_8UC1 ->
  Cv.Canny RefCv.library m (50 # 1)%Q (150 # 1)%Q
  = Cv.Ok (Cv.mkMat (Cv.rows m) (Cv.cols m) Cv.CV_8UC1
             (map (fun edge : bool => if edge then xff else x00)
                  (RefCv.hysteresis m 50 150))).
Proof.
  intros Hwf Htype. cbn. unfold RefCv.Canny.
  now rewrite (well_formed_not_empty m Hwf), Htype.
Qed.

Lemma length_hysteresis m low high :
  length (RefCv.hysteresis m low high) = Z.to_nat (Cv.rows m * Cv.cols m).
Proof.
  unfold RefCv.hysteresis.
  destruct (Z.to_nat (Cv.rows m * Cv.cols m)) as [| n] eqn:E; cbn.
  - now rewrite length_tabulate.
  - unfold RefCv.grow at 1. now rewrite length_tabulate.
Qed.

Lemma ref_canny_binary : CvLaws.canny_binary RefCv.library.
Proof.
  intros m Hwf Htype. eexists. split; [now apply ref_Canny |].
  split.
  - unfold CvLaws.gray_of_size. cbn. repeat split.
    rewrite length_map, length_hysteresis. destruct Hwf as (Hr & Hc & _).
    nia.
  - cbn. apply Forall_map, Forall_forall. intros edge _.
    destruct edge; [now right | now left].
Qed.

(** A constant image has no gradient. *)
Lemma src_constant m v y x :
  0 < Cv.rows m -> 0 < Cv.cols m ->
  Cv.data m = repeat v (Z.to_nat (Cv.rows m * Cv.cols m)) ->
  RefCv.src m y x = RefCv.u8 v.
Proof.
  intros Hr Hc Hdata. unfold RefCv.src.
  apply at1_constant; [exact Hdata | |]; now apply replicate_range.
Qed.

Lemma magnitude_constant m v y x :
  0 < Cv.rows m -> 0 < Cv.cols m ->
  Cv.data m = repeat v (Z.to_nat (Cv.rows m * Cv.cols m)) ->
  RefCv.magnitude m y x = 0.
Proof.
  intros Hr Hc Hdata. unfold RefCv.magnitude, RefCv.sobel_dx, RefCv.sobel_dy.
  rewrite !(src_constant m v) by assumption.
  destruct (RefCv.inside _ _ _ _); [| reflexivity].
  rewrite !Z.sub_diag. reflexivity.
Qed.

(** Hysteresis has nothing to grow from. *)
Lemma grow_nothing m low n :
  0 < Cv.cols m ->
  RefCv.grow m low (repeat false n)
  = repeat false (Z.to_nat (Cv.rows m * Cv.cols m)).
Proof.
  intros Hc. unfold RefCv.grow. apply tabulate_constant; [exact Hc |].
  intros y x _ _. unfold RefCv.mask_at, RefCv.neighbours.
  cbn [existsb fst snd]. rewrite !nth_repeat, !andb_false_r.
  reflexivity.
Qed.

Lemma hysteresis_constant m v low high :
  0 <= low ->
  0 < Cv.rows m -> 0 < Cv.cols m ->
  Cv.data m = repeat v (Z.to_nat (Cv.rows m * Cv.cols m)) ->
  RefCv.hysteresis m low high
  = repeat false (Z.to_nat (Cv.rows m * Cv.cols m)).
Proof.
  intros Hlow Hr Hc Hdata. unfold RefCv.hysteresis.
  assert (Hinit : RefCv.tabulate (Cv.rows m) (Cv.cols m)
                    (RefCv.strong m low high)
                  = repeat false (Z.to_nat (Cv.rows m * Cv.cols m))).
  { apply tabulate_constant; [exact Hc |]. intros y x _ _.
    unfold RefCv.strong, RefCv.candidate.
    rewrite (magnitude_constant m v) by assumption.
    destruct (low <? 0) eqn:E; [apply Z.ltb_lt in E; lia | reflexivity]. }
  rewrite Hinit.
  generalize (Z.to_nat (Cv.rows m * Cv.cols m)) at 1 as rounds.
  induction rounds as [| rounds IH]; [reflexivity |].
  rewrite Nat.iter_succ, IH. now apply grow_nothing.
Qed.

Lemma ref_canny_constant : CvLaws.canny_constant RefCv.library.
Proof.
  intros m e y Hwf Htype Huni He.
  rewrite (ref_Canny m Hwf Htype) in He. injection He as <-.
  unfold CvLaws.uniform in *. cbn. rewrite concat_repeat_singleton in *.
  destruct Hwf as (Hr & Hc & _).
  rewrite (hysteresis_constant m y) by (assumption || lia).
  generalize (Z.to_nat (Cv.rows m * Cv.cols m)) as n.
  induction n as [| n IH]; cbn; [reflexivity | now rewrite IH].
Qed.

(** The reference detector does find edges: on the frame with a vertical
    step, the third pixel of the first row is an edge and the first is
    not. *)
Example step_frame_has_an_edge :
  exists w' (output : list byte),
    NativeLib.processFrameBytes RefCv.library 64 quiet_env 0%nat 6 6 true
      (initial_world [step_6x6]) = Return (Some 1%nat) w' /\
    heap w' !! 1%nat = Some output /\
    firstn 12 output
    = [x00; x00; x00; xff; x00; x00; x00; xff; xff; xff; xff; xff].
Proof.
  do 2 eexists. split; [vm_compute; reflexivity |].
  split; reflexivity.
Qed.

(** ** Edge detection on valid frames *)

(** C4.  With edge detection on, the array returned for a valid frame has
    [width * height * 4] bytes, whatever the bytes of the frame are and
    whatever the library computes; and with a library that keeps sizes the
    call returns, with an array when both allocations succeed. *)
Theorem edge_output_has_frame_length cv long_bits env imageData width height
    w (bytes : list byte) :
  valid_frame w imageData width height bytes ->
  let call :=
    NativeLib.processFrameBytes cv long_bits env imageData width height
      true w in
  (forall (outputArray : Jni.jbyteArray) w',
      call = Return (Some outputArray) w' ->
      exists output : list byte,
        heap w' !! outputArray = Some output /\
        Z.of_nat (length output) = width * height * 4) /\
  (CvLaws.rgba2gray_size cv -> CvLaws.blur_size cv ->
   CvLaws.canny_binary cv -> CvLaws.gray2rgba_replicates cv ->
   exists r w', call = Return r w' /\
                (allocations_succeed env -> r <> None)).
Proof.
  intros Hvalid call. split.
  - intros outputArray w' Hcall.
    pose proof (valid_frame_expectedLength _ _ _ _ _ Hvalid) as Hexp.
    destruct Hvalid as (_ & _ & _ & Hlen & _).
    pose proof (processFrameBytes_ending cv long_bits env imageData width
                  height true w) as Hend.
    fold call in Hend. rewrite Hcall in Hend.
    inversion Hend as [| | | bytes' outputMat _ _ _ _ _ Hbuf]. subst.
    eexists. split.
    + cbn. apply list_lookup_middle. reflexivity.
    + rewrite length_take. lia.
  - intros Hgray Hblur Hcanny Hrgba.
    now destruct (edge_frame_call cv Hgray Hblur Hcanny Hrgba long_bits env
                    imageData width height w bytes Hvalid).
Qed.

(** The all-zero and the all-255 frame of 3x2 pixels. *)
Lemma edge_output_has_frame_length_witness :
  let returns_24_bytes frame :=
    let call :=
      NativeLib.processFrameBytes RefCv.library 64 quiet_env 0%nat 3 2 true
        (initial_world [frame]) in
    (forall (outputArray : Jni.jbyteArray) w',
        call = Return (Some outputArray) w' ->
        exists output : list byte,
          heap w' !! outputArray = Some output /\
          Z.of_nat (length output) = 3 * 2 * 4) /\
    (exists r w', call = Return r w' /\
                  (allocations_succeed quiet_env -> r <> None)) in
  returns_24_bytes (repeat x00 24) /\ returns_24_bytes (repeat xff 24).
Proof.
  split.
  - destruct (edge_output_has_frame_length RefCv.library 64 quiet_env 0%nat
                3 2 (initial_world [repeat x00 24]) (repeat x00 24))
      as [Hlength Hreturns].
    + repeat split; reflexivity.
    + split; [exact Hlength |].
      exact (Hreturns ref_rgba2gray_size ref_blur_size ref_canny_binary
               ref_gray2rgba_replicates).
  - destruct (edge_output_has_frame_length RefCv.library 64 quiet_env 0%nat
                3 2 (initial_world [repeat xff 24]) (repeat xff 24))
      as [Hlength Hreturns].
    + repeat split; reflexivity.
    + split; [exact Hlength |].
      exact (Hreturns ref_rgba2gray_size ref_blur_size ref_canny_binary
               ref_gray2rgba_replicates).
Defined.

(** C5.  With edge detection on, every pixel of the array returned for a
    valid frame has equal R, G and B, and that value is 0 or 255. *)
Theorem edge_output_is_binary_gray cv long_bits env imageData width height
    w (bytes : list byte) :
  CvLaws.rgba2gray_size cv -> CvLaws.blur_size cv ->
  CvLaws.canny_binary cv -> CvLaws.gray2rgba_replicates cv ->
  valid_frame w imageData width height bytes ->
  let call :=
    NativeLib.processFrameBytes cv long_bits env imageData width height
      true w in
  (exists r w', call = Return r w' /\
                (allocations_succeed env -> r <> None)) /\
  (forall (outputArray : Jni.jbyteArray) w',
      call = Return (Some outputArray) w' ->
      exists output : list byte,
        heap w' !! outputArray = Some output /\
        forall pixel : nat, Z.of_nat pixel < width * height ->
          exists v, (v = x00 \/ v = xff) /\
            output !! (4 * pixel)%nat = Some v /\
            output !! (4 * pixel + 1)%nat = Some v /\
            output !! (4 * pixel + 2)%nat = Some v).
Proof.
  intros Hgray Hblur Hcanny Hrgba Hvalid call.
  destruct (edge_frame_call cv Hgray Hblur Hcanny Hrgba long_bits env
              imageData width height w bytes Hvalid)
    as [Hreturns Harray].
  split; [exact Hreturns |].
  intros outputArray w' Hcall.
  destruct (Harray outputArray w' Hcall) as (edges & Hbin & Hedges & Hout).
  exists (flat_map CvLaws.gray2rgba edges). split; [exact Hout |].
  intros pixel Hpixel.
  destruct (lookup_lt_is_Some_2 edges pixel ltac:(lia)) as [v Hv].
  exists v. split.
  - rewrite Forall_forall in Hbin. apply Hbin.
    eapply list_elem_of_lookup_2. exact Hv.
  - destruct (lookup_flat_map_gray2rgba edges pixel v Hv)
      as (H0 & H1 & H2 & _). auto.
Qed.

(** The frame with a vertical black-to-white step. *)
Lemma edge_output_is_binary_gray_witness :
  let call :=
    NativeLib.processFrameBytes RefCv.library 64 quiet_env 0%nat 6 6 true
      (initial_world [step_6x6]) in
  (exists r w', call = Return r w' /\
                (allocations_succeed quiet_env -> r <> None)) /\
  (forall (outputArray : Jni.jbyteArray) w',
      call = Return (Some outputArray) w' ->
      exists output : list byte,
        heap w' !! outputArray = Some output /\
        forall pixel : nat, Z.of_nat pixel < 6 * 6 ->
          exists v, (v = x00 \/ v = xff) /\
            output !! (4 * pixel)%nat = Some v /\
            output !! (4 * pixel + 1)%nat = Some v /\
            output !! (4 * pixel + 2)%nat = Some v).
Proof.
  apply (edge_output_is_binary_gray RefCv.library 64 quiet_env 0%nat 6 6
           (initial_world [step_6x6]) step_6x6
           ref_rgba2gray_size ref_blur_size ref_canny_binary
           ref_gray2rgba_replicates).
  repeat split; reflexivity.
Defined.

(** ** Frames of one colour *)

Lemma flat_map_gray2rgba_constant v n :
  flat_map CvLaws.gray2rgba (repeat v n) = concat (repeat [v; v; v; xff] n).
Proof. induction n as [| n IH]; cbn; [reflexivity | now rewrite IH]. Qed.

Lemma length_concat_repeat4 (c0 c1 c2 c3 : byte) n :
  length (concat (repeat [c0; c1; c2; c3] n)) = (4 * n)%nat.
Proof. induction n as [| n IH]; cbn in *; lia. Qed.

(** A valid frame of a single colour comes back black and opaque. *)
Lemma uniform_frame_call cv long_bits env imageData width height w
    r g b a :
  CvLaws.rgba2gray_size cv -> CvLaws.rgba2gray_pointwise cv ->
  CvLaws.blur_size cv -> CvLaws.blur_constant cv ->
  CvLaws.canny_binary cv -> CvLaws.canny_constant cv ->
  CvLaws.gray2rgba_replicates cv ->
  let pixels := Z.to_nat (height * width) in
  valid_frame w imageData width height
    (concat (repeat [r; g; b; a] pixels)) ->
  let call :=
    NativeLib.processFrameBytes cv long_bits env imageData width height
      true w in
  (exists r' w', call = Return r' w' /\
                 (allocations_succeed env -> r' <> None)) /\
  (forall (outputArray : Jni.jbyteArray) w',
      call = Return (Some outputArray) w' ->
      heap w' !! outputArray
      = Some (concat (repeat [x00; x00; x00; xff] pixels))).
Proof.
  intros Hgray Hgray1 Hblur Hblur1 Hcanny Hcanny1 Hrgba pixels Hvalid call.
  set (bytes := concat (repeat [r; g; b; a] pixels)) in *.
  pose proof (valid_frame_expectedLength _ _ _ _ _ Hvalid) as Hexp.
  pose proof (valid_frame_well_formed _ _ _ _ _ Hvalid) as Hwf.
  destruct Hvalid as (Hlive & Hw & Hh & Hlen & Hjsize).
  destruct (edgeDetection_output cv Hgray Hblur Hcanny Hrgba _ Hwf eq_refl)
    as (gm & bm & em & Hg & Hb & He & Hgsize & Hbsize & Hesize & _ & Hout).
  destruct (gray_of_size_well_formed _ _ Hwf Hgsize) as [Hgwf Hgtype].
  destruct (gray_of_size_well_formed _ _ Hwf Hbsize) as [Hbwf Hbtype].
  assert (Huni : CvLaws.uniform [r; g; b; a]
                   (Cv.Mat_over height width Cv.CV_8UC4 bytes))
    by reflexivity.
  destruct (Hgray1 _ gm r g b a Hwf eq_refl Huni Hg) as [y Hguni].
  pose proof (Hblur1 gm bm y Hgwf Hgtype Hguni Hb) as Hbuni.
  pose proof (Hcanny1 bm em y Hbwf Hbtype Hbuni He) as Heuni.
  unfold CvLaws.uniform in Heuni.
  destruct Hesize as (Her & Hec & _ & _). cbn in Her, Hec.
  rewrite Her, Hec, concat_repeat_singleton in Heuni. fold pixels in Heuni.
  rewrite Heuni, flat_map_gray2rgba_constant in Hout.
  cbn [Cv.rows Cv.cols Cv.Mat_over] in Hout.
  assert (Hcount : length (concat (repeat [x00; x00; x00; xff] pixels))
                   = length bytes).
  { subst bytes. now rewrite !length_concat_repeat4. }
  destruct (call_with_transform cv long_bits env imageData width height
              true w bytes _ Hlive Hexp Hout
              ltac:(cbn [Cv.data]; rewrite Hcount; lia))
    as [Hreturns Harray].
  split; [exact Hreturns |].
  intros outputArray w' Hcall.
  destruct (Harray outputArray w' Hcall) as [-> ->]. cbn [Cv.data].
  rewrite list_lookup_middle by reflexivity. f_equal.
  apply take_ge. rewrite Hcount. lia.
Qed.

(** C6.  The 4x4 all-red frame with edge detection on: the array returned
    has 64 bytes and every pixel is [(0, 0, 0, 255)], colour at the no-edge
    value and alpha opaque. *)
Theorem flat_red_frame_has_no_edges cv long_bits env imageData w :
  CvLaws.rgba2gray_size cv -> CvLaws.rgba2gray_pointwise cv ->
  CvLaws.blur_size cv -> CvLaws.blur_constant cv ->
  CvLaws.canny_binary cv -> CvLaws.canny_constant cv ->
  CvLaws.gray2rgba_replicates cv ->
  heap w !! imageData = Some red_4x4 ->
  let call :=
    NativeLib.processFrameBytes cv long_bits env imageData 4 4 true w in
  (exists r w', call = Return r w' /\
                (allocations_succeed env -> r <> None)) /\
  (forall (outputArray : Jni.jbyteArray) w',
      call = Return (Some outputArray) w' ->
      exists output : list byte,
        heap w' !! outputArray = Some output /\
        length output = 64%nat /\
        output = concat (repeat [x00; x00; x00; xff] 16)).
Proof.
  intros Hgray Hgray1 Hblur Hblur1 Hcanny Hcanny1 Hrgba Hlive call.
  destruct (uniform_frame_call cv long_bits env imageData 4 4 w
              xff x00 x00 xff Hgray Hgray1 Hblur Hblur1 Hcanny Hcanny1 Hrgba)
    as [Hreturns Harray].
  { repeat split; first [exact Hlive | reflexivity]. }
  split; [exact Hreturns |].
  intros outputArray w' Hcall.
  exists (concat (repeat [x00; x00; x00; xff] 16)).
  split; [exact (Harray outputArray w' Hcall) |]. split; reflexivity.
Qed.

Lemma flat_red_frame_has_no_edges_witness :
  let call :=
    NativeLib.processFrameBytes RefCv.library 64 quiet_env 0%nat 4 4 true
      (initial_world [red_4x4]) in
  (exists r w', call = Return r w' /\
                (allocations_succeed quiet_env -> r <> None)) /\
  (forall (outputArray : Jni.jbyteArray) w',
      call = Return (Some outputArray) w' ->
      exists output : list byte,
        heap w' !! outputArray = Some output /\
        length output = 64%nat /\
        output = concat (repeat [x00; x00; x00; xff] 16)).
Proof.
  apply (flat_red_frame_has_no_edges RefCv.library 64 quiet_env 0%nat
           (initial_world [red_4x4])
           ref_rgba2gray_size ref_rgba2gray_pointwise
           ref_blur_size ref_blur_constant
           ref_canny_binary ref_canny_constant
           ref_gray2rgba_replicates).
  reflexivity.
Defined.

(** * Further properties of the code *)

(** ** processFrameWithCanny *)

(** X1.  [processFrameWithCanny] recovers from a failing pipeline: when a
    step throws, [outputMat] becomes what [copyTo] makes of the input and
    the exception is logged; an exception leaves the function only when the
    pipeline threw and the copy in the handler throws as well; with a
    [copyTo] that copies, a failing pipeline on a well-formed image yields
    the input image itself. *)
Theorem processFrameWithCanny_recovers cv inputMat :
  (forall e,
      OpenCVProcessing.cannyPipeline cv inputMat = Cv.Throw e ->
      OpenCVProcessing.processFrameWithCanny cv inputMat
      = (Cv.copyTo cv inputMat, [LOGI (MsgOpenCVException e)])) /\
  (forall e',
      fst (OpenCVProcessing.processFrameWithCanny cv inputMat) = Cv.Throw e' ->
      (exists e, OpenCVProcessing.cannyPipeline cv inputMat = Cv.Throw e) /\
      Cv.copyTo cv inputMat = Cv.Throw e') /\
  (CvLaws.copyTo_copies cv -> CvLaws.well_formed inputMat ->
   forall e,
     OpenCVProcessing.cannyPipeline cv inputMat = Cv.Throw e ->
     fst (OpenCVProcessing.processFrameWithCanny cv inputMat)
     = Cv.Ok inputMat).
Proof.
  unfold OpenCVProcessing.processFrameWithCanny.
  destruct (OpenCVProcessing.cannyPipeline cv inputMat) as [out | e0].
  - repeat split; intros; discriminate.
  - split; [| split].
    + intros e He. now injection He as ->.
    + intros e' He'. split; [now exists e0 | exact He'].
    + intros Hcopy Hwf e _. cbn. now apply Hcopy.
Qed.

(** The 4x4 red image when the blur runs out of memory. *)
Lemma processFrameWithCanny_recovers_witness :
  let inputMat := Cv.Mat_over 4 4 Cv.CV_8UC4 red_4x4 in
  OpenCVProcessing.cannyPipeline RefCv.library_out_of_memory inputMat
  = Cv.Throw Cv.StsNoMem /\
  fst (OpenCVProcessing.processFrameWithCanny RefCv.library_out_of_memory
         inputMat) = Cv.Ok inputMat.
Proof.
  split; [reflexivity |].
  apply (proj2 (proj2 (processFrameWithCanny_recovers
                         RefCv.library_out_of_memory
                         (Cv.Mat_over 4 4 Cv.CV_8UC4 red_4x4)))
           (fun m _ => eq_refl)
           (conj eq_refl (conj eq_refl eq_refl)) Cv.StsNoMem).
  reflexivity.
Defined.

Lemma bind_bind {A B C} (r : Cv.result A) (f : A -> Cv.result B)
    (g : B -> Cv.result C) :
  Cv.bind (Cv.bind r f) g = Cv.bind r (fun a => Cv.bind (f a) g).
Proof. now destruct r. Qed.

(** X2.  With a library whose conversions through BGR equal the direct ones
    and which keeps sizes, the pipeline of [processFrameWithCanny] computes,
    on a well-formed RGBA image, exactly what STEP 5.1 to 5.4 of
    [processFrameBytes] compute; so [processFrameWithCanny] is that recipe
    with the fallback copy added. *)
Theorem processFrameWithCanny_is_the_gateway_recipe cv inputMat :
  CvColourLaws.gray_via_bgr cv -> CvColourLaws.rgba_via_bgr cv ->
  CvLaws.rgba2gray_size cv -> CvLaws.blur_size cv ->
  CvLaws.canny_binary cv ->
  CvLaws.well_formed inputMat -> Cv.type inputMat = Cv.CV_8UC4 ->
  OpenCVProcessing.cannyPipeline cv inputMat
  = NativeLib.edgeDetection cv inputMat /\
  fst (OpenCVProcessing.processFrameWithCanny cv inputMat)
  = match NativeLib.edgeDetection cv inputMat with
    | Cv.Ok outputMat => Cv.Ok outputMat
    | Cv.Throw _ => Cv.copyTo cv inputMat
    end.
Proof.
  intros Hvia1 Hvia2 Hgray Hblur Hcanny Hwf Htype.
  assert (Heq : OpenCVProcessing.cannyPipeline cv inputMat
                = NativeLib.edgeDetection cv inputMat).
  { unfold OpenCVProcessing.cannyPipeline, NativeLib.edgeDetection.
    rewrite <- bind_bind, (Hvia1 inputMat Hwf Htype).
    destruct (Hgray inputMat Hwf Htype) as (g & -> & Hgsize).
    destruct (gray_of_size_well_formed _ _ Hwf Hgsize) as [Hgwf Hgtype].
    cbn [Cv.bind].
    destruct (Hblur g Hgwf Hgtype) as (b & -> & Hbsize).
    destruct (gray_of_size_well_formed _ _ Hgwf Hbsize) as [Hbwf Hbtype].
    cbn [Cv.bind].
    destruct (Hcanny b Hbwf Hbtype) as (e & -> & Hesize & _).
    destruct (gray_of_size_well_formed _ _ Hbwf Hesize) as [Hewf Hetype].
    cbn [Cv.bind]. now apply Hvia2. }
  split; [exact Heq |].
  unfold OpenCVProcessing.processFrameWithCanny. rewrite Heq.
  now destruct (NativeLib.edgeDetection cv inputMat).
Qed.

Lemma not_empty m :
  0 < Cv.rows m -> 0 < Cv.cols m -> (0 < length (Cv.data m))%nat ->
  Cv.empty m = false.
Proof.
  intros Hr Hc Hlen. unfold Cv.empty.
  destruct (Cv.rows m =? 0) eqn:E1; [apply Z.eqb_eq in E1; lia |].
  destruct (Cv.cols m =? 0) eqn:E2; [apply Z.eqb_eq in E2; lia |].
  destruct (length (Cv.data m)); [lia | reflexivity].
Qed.

Lemma map3_after_map4 (l : list byte) n :
  length l = (4 * n)%nat ->
  length (RefCv.map4 (fun r g b _ => [b; g; r]) l) = (3 * n)%nat /\
  RefCv.map3 (fun b g r => [RefCv.luma r g b])
    (RefCv.map4 (fun r g b _ => [b; g; r]) l)
  = RefCv.map4 (fun r g b _ => [RefCv.luma r g b]) l.
Proof.
  revert l. induction n as [| n IH]; intros l Hlen.
  - now destruct l.
  - destruct l as [| c0 [| c1 [| c2 [| c3 l]]]]; cbn in Hlen; try lia.
    destruct (IH l ltac:(lia)) as [IHlen IHmap]. cbn. split; [lia |].
    now rewrite IHmap.
Qed.

Lemma map3_after_flat_map (l : list byte) :
  length (flat_map (fun y : byte => [y; y; y]) l) = (3 * length l)%nat /\
  RefCv.map3 (fun b g r => [r; g; b; xff])
    (flat_map (fun y : byte => [y; y; y]) l)
  = flat_map CvLaws.gray2rgba l.
Proof.
  induction l as [| y l [IHlen IHmap]]; [now split |].
  cbn. split; [lia | now rewrite IHmap].
Qed.

Lemma ref_gray_via_bgr : CvColourLaws.gray_via_bgr RefCv.library.
Proof.
  intros m Hwf Htype. rewrite (ref_rgba2gray m Hwf Htype).
  destruct Hwf as (Hr & Hc & Hlen).
  unfold Cv.channels in Hlen. rewrite Htype in Hlen. cbn in Hlen.
  destruct (map3_after_map4 (Cv.data m) (Z.to_nat (Cv.rows m * Cv.cols m))
              ltac:(lia)) as [Hlen3 Hmap].
  change (Cv.cvtColor RefCv.library) with RefCv.cvtColor.
  assert (Hbgr : RefCv.cvtColor m Cv.COLOR_RGBA2BGR
                 = Cv.Ok (Cv.mkMat (Cv.rows m) (Cv.cols m) Cv.CV_8UC3
                            (RefCv.map4 (fun r g b _ => [b; g; r])
                               (Cv.data m)))).
  { unfold RefCv.cvtColor.
    now rewrite (not_empty m), Htype by (try assumption; nia). }
  rewrite Hbgr. cbn [Cv.bind]. unfold RefCv.cvtColor.
  rewrite not_empty by (cbn; try assumption; rewrite Hlen3; nia).
  cbn. now rewrite Hmap.
Qed.

Lemma ref_rgba_via_bgr : CvColourLaws.rgba_via_bgr RefCv.library.
Proof.
  intros m Hwf Htype. rewrite (ref_gray2rgba_replicates m Hwf Htype).
  destruct Hwf as (Hr & Hc & Hlen).
  unfold Cv.channels in Hlen. rewrite Htype in Hlen. cbn in Hlen.
  destruct (map3_after_flat_map (Cv.data m)) as [Hlen3 Hmap].
  change (Cv.cvtColor RefCv.library) with RefCv.cvtColor.
  assert (Hbgr : RefCv.cvtColor m Cv.COLOR_GRAY2BGR
                 = Cv.Ok (Cv.mkMat (Cv.rows m) (Cv.cols m) Cv.CV_8UC3
                            (flat_map (fun y : byte => [y; y; y])
                               (Cv.data m)))).
  { unfold RefCv.cvtColor.
    now rewrite (not_empty m), Htype by (try assumption; nia). }
  rewrite Hbgr. cbn [Cv.bind]. unfold RefCv.cvtColor.
  rewrite not_empty by (cbn; try assumption; rewrite Hlen3; nia).
  cbn. now rewrite Hmap.
Qed.

(** The step frame: both functions find the same edges. *)
Lemma processFrameWithCanny_is_the_gateway_recipe_witness :
  let inputMat := Cv.Mat_over 6 6 Cv.CV_8UC4 step_6x6 in
  OpenCVProcessing.cannyPipeline RefCv.library inputMat
  = NativeLib.edgeDetection RefCv.library inputMat /\
  fst (OpenCVProcessing.processFrameWithCanny RefCv.library inputMat)
  = match NativeLib.edgeDetection RefCv.library inputMat with
    | Cv.Ok outputMat => Cv.Ok outputMat
    | Cv.Throw _ => Cv.copyTo RefCv.library inputMat
    end.
Proof.
  apply (processFrameWithCanny_is_the_gateway_recipe RefCv.library
           (Cv.Mat_over 6 6 Cv.CV_8UC4 step_6x6)
           ref_gray_via_bgr ref_rgba_via_bgr ref_rgba2gray_size
           ref_blur_size ref_canny_binary).
  - repeat split; reflexivity.
  - reflexivity.
Defined.

(** ** How a call to processFrameBytes ends *)

(** The seven paths through [processFrameBytes], each with the outcome it
    produces. *)
Lemma processFrameBytes_paths cv long_bits env imageData width height
    applyEdgeDetection w :
  let call :=
    NativeLib.processFrameBytes cv long_bits env imageData width height
      applyEdgeDetection w in
  let expected := NativeLib.expectedLength width height in
  (heap w !! imageData = None /\ call = Undefined) \/
  exists bytes : list byte,
    heap w !! imageData = Some bytes /\
    let inputMat := Cv.Mat_over height width Cv.CV_8UC4 bytes in
    ((Z.of_nat (length bytes) <> expected /\
      call = Return None
               (log (LOGE (MsgLengthMismatch expected
                             (Z.of_nat (length bytes)))) w)) \/
     (Z.of_nat (length bytes) = expected /\
      ((Jni.GetByteArrayElements_fails env = true /\
        call = Return None (log (LOGE MsgGetElementsFailed) w)) \/
       (Jni.GetByteArrayElements_fails env = false /\
        ((exists e,
             NativeLib.transform cv applyEdgeDetection inputMat = Cv.Throw e /\
             call = Uncaught e
                      (log (mode_line applyEdgeDetection width height) w)) \/
         (exists outputMat,
             NativeLib.transform cv applyEdgeDetection inputMat
             = Cv.Ok outputMat /\
             ((Jni.NewByteArray_fails env = true /\
               call = Return None
                        (allocation_failed_world applyEdgeDetection width
                           height outputMat w)) \/
              (Jni.NewByteArray_fails env = false /\
               Z.of_nat (length (Cv.data outputMat)) < expected /\
               call = Undefined) \/
              (Jni.NewByteArray_fails env = false /\
               expected <= Z.of_nat (length (Cv.data outputMat)) /\
               call = Return (Some (length (heap w)))
                        (completed_world long_bits env applyEdgeDetection
                           width height outputMat w))))))))).
Proof.
  intros call expected.
  destruct (heap w !! imageData) as [bytes |] eqn:Hlive.
  2:{ left. split; [reflexivity |]. subst call.
      unfold NativeLib.processFrameBytes, Jni.GetArrayLength.
      now rewrite Hlive. }
  right. exists bytes. split; [reflexivity |]. cbn zeta.
  destruct (Z.eq_dec (Z.of_nat (length bytes)) expected) as [Hlen | Hlen].
  2:{ left. split; [exact Hlen |]. subst call expected.
      now apply step1_rejects. }
  right. split; [exact Hlen |].
  assert (Hcall : call = NativeLib.processAcceptedFrame cv long_bits env
                           imageData width height applyEdgeDetection w)
    by (subst call; now apply step1_accepts with (bytes := bytes)).
  destruct (Jni.GetByteArrayElements_fails env) eqn:Helems.
  { left. split; [reflexivity |]. rewrite Hcall.
    unfold NativeLib.processAcceptedFrame, Jni.GetByteArrayElements.
    now rewrite Helems. }
  right. split; [reflexivity |].
  destruct (NativeLib.transform cv applyEdgeDetection
              (Cv.Mat_over height width Cv.CV_8UC4 bytes))
    as [outputMat | e] eqn:Htr.
  2:{ left. exists e. split; [reflexivity |]. rewrite Hcall.
      unfold NativeLib.processAcceptedFrame, Jni.GetByteArrayElements.
      rewrite Helems, Hlive. cbn zeta.
      rewrite mat_validation_passes, Htr.
      now destruct applyEdgeDetection. }
  right. exists outputMat. split; [reflexivity |].
  destruct (Jni.NewByteArray_fails env) eqn:Hnew.
  { left. split; [reflexivity |]. rewrite Hcall.
    unfold NativeLib.processAcceptedFrame, Jni.GetByteArrayElements,
      Jni.NewByteArray.
    rewrite Helems, Hlive, Hnew. cbn zeta.
    rewrite mat_validation_passes, Htr, orb_true_r.
    unfold allocation_failed_world.
    destruct applyEdgeDetection; unfold with_heap, log; cbn;
      now rewrite <- ?app_assoc. }
  right.
  destruct (Z_lt_le_dec (Z.of_nat (length (Cv.data outputMat))) expected)
    as [Hshort | Hfits].
  - left. split; [reflexivity |]. split; [exact Hshort |].
    pose proof (processFrameBytes_ending cv long_bits env imageData width
                  height applyEdgeDetection w) as Hend.
    fold call in Hend.
    assert (Hnot_null : forall w', call <> Return None w').
    { intros w' Hnull. rewrite Hcall in Hnull.
      unfold NativeLib.processAcceptedFrame, Jni.GetByteArrayElements,
        Jni.NewByteArray in Hnull.
      rewrite Helems, Hlive, Hnew in Hnull. cbn zeta in Hnull.
      rewrite mat_validation_passes, Htr, outputSize_expectedLength,
        orb_false_r in Hnull.
      fold expected in Hnull.
      destruct (expected <? 0) eqn:E; [apply Z.ltb_lt in E; lia |].
      destruct (Jni.SetByteArrayRegion _ _ _ _ _); discriminate. }
    inversion Hend as [Hu | w' _ _ Hn | e w' _ _ Hx
                       | bytes' outputMat' Hlive' _ _ _ Htr' Hbuf Hr].
    + reflexivity.
    + now contradiction (Hnot_null w').
    + rewrite Hcall in Hx.
      unfold NativeLib.processAcceptedFrame, Jni.GetByteArrayElements
        in Hx.
      rewrite Helems, Hlive in Hx. cbn zeta in Hx.
      rewrite mat_validation_passes, Htr in Hx.
      destruct (Jni.NewByteArray _ _ _) as [[? ?] |];
        [destruct (Jni.SetByteArrayRegion _ _ _ _ _) |]; discriminate.
    + rewrite Hlive in Hlive'. injection Hlive' as <-.
      rewrite Htr in Htr'. injection Htr' as <-. fold expected in Hbuf.
      lia.
  - right. split; [reflexivity |]. split; [exact Hfits |]. subst call.
    now apply processFrameBytes_completes with (bytes := bytes).
Qed.

(** Case analysis along [processFrameBytes_paths]. *)
Ltac paths cv long_bits env imageData width height applyEdgeDetection w :=
  let P := fresh "P" in
  pose proof (processFrameBytes_paths cv long_bits env imageData width height
                applyEdgeDetection w) as P;
  cbn zeta in P;
  destruct P
    as [[?Hdead ?Hcall]
       | (?bytes & ?Hlive
          & [[?Hne ?Hcall]
            | [?Hlen
                 [[?Helems ?Hcall]
                 | [?Helems
                      [(?e & ?Htr & ?Hcall)
                      | (?outputMat & ?Htr
                         & [[?Hnew ?Hcall]
                           | [(?Hnew & ?Hshort & ?Hcall)
                             | (?Hnew & ?Hfits & ?Hcall)]])]]]]])].

(** What is known when an array has been returned. *)
Lemma returned_array_world cv long_bits env imageData width height
    applyEdgeDetection w (outputArray : Jni.jbyteArray) w' :
  NativeLib.processFrameBytes cv long_bits env imageData width height
    applyEdgeDetection w = Return (Some outputArray) w' ->
  exists (bytes : list byte) outputMat,
    heap w !! imageData = Some bytes /\
    Z.of_nat (length bytes) = NativeLib.expectedLength width height /\
    NativeLib.transform cv applyEdgeDetection
      (Cv.Mat_over height width Cv.CV_8UC4 bytes) = Cv.Ok outputMat /\
    NativeLib.expectedLength width height
      <= Z.of_nat (length (Cv.data outputMat)) /\
    outputArray = length (heap w) /\
    w' = completed_world long_bits env applyEdgeDetection width height
           outputMat w.
Proof.
  intros Harr.
  paths cv long_bits env imageData width height applyEdgeDetection w;
    rewrite Hcall in Harr; try discriminate.
  injection Harr as <- <-. exists bytes, outputMat. auto 10.
Qed.

(** X5.  An exception escapes [processFrameBytes] exactly when STEP 1 and
    STEP 2 have passed and the transform of STEP 5 throws, the recipe or the
    passthrough copy alike; the heap and the stored time are then as before
    and the only line logged is the one that announces the mode. *)
Theorem exception_escapes_iff_transform_throws cv long_bits env imageData
    width height applyEdgeDetection w e w' :
  NativeLib.processFrameBytes cv long_bits env imageData width height
    applyEdgeDetection w = Uncaught e w'
  <->
  exists bytes : list byte,
    heap w !! imageData = Some bytes /\
    Z.of_nat (length bytes) = NativeLib.expectedLength width height /\
    Jni.GetByteArrayElements_fails env = false /\
    NativeLib.transform cv applyEdgeDetection
      (Cv.Mat_over height width Cv.CV_8UC4 bytes) = Cv.Throw e /\
    w' = log (mode_line applyEdgeDetection width height) w.
Proof.
  split.
  - intros Hesc.
    paths cv long_bits env imageData width height applyEdgeDetection w;
      rewrite Hcall in Hesc; try discriminate.
    injection Hesc as <- <-. exists bytes. auto.
  - intros (bytes' & Hlive' & Hlen' & Helems' & Htr' & ->).
    paths cv long_bits env imageData width height applyEdgeDetection w;
      rewrite Hcall; try congruence.
    all: rewrite Hlive in Hlive'; injection Hlive' as <-; congruence.
Qed.

(** A passthrough call on the red frame when the copy cannot allocate. *)
Lemma exception_escapes_iff_transform_throws_witness :
  let cv := Cv.mkLibrary "4.9.0" RefCv.cvtColor RefCv.GaussianBlur
              RefCv.Canny (fun _ => Cv.Throw Cv.StsNoMem) in
  NativeLib.processFrameBytes cv 64 quiet_env 0%nat 4 4 false
    (initial_world [red_4x4])
  = Uncaught Cv.StsNoMem
      (log (LOGI (MsgPassthroughMode 4 4)) (initial_world [red_4x4])).
Proof.
  apply (proj2 (exception_escapes_iff_transform_throws _ 64 quiet_env 0%nat
                  4 4 false (initial_world [red_4x4]) Cv.StsNoMem _)).
  exists red_4x4. repeat split; reflexivity.
Defined.

(** X6.  [processFrameBytes] returns [nullptr] exactly in three cases: the
    length differs from the 32-bit [width * height * 4]; or
    [GetByteArrayElements] fails; or the transform has succeeded and
    [NewByteArray] fails. *)
Theorem returns_null_iff cv long_bits env imageData width height
    applyEdgeDetection w :
  (exists w',
      NativeLib.processFrameBytes cv long_bits env imageData width height
        applyEdgeDetection w = Return None w')
  <->
  exists bytes : list byte,
    heap w !! imageData = Some bytes /\
    (Z.of_nat (length bytes) <> NativeLib.expectedLength width height \/
     Z.of_nat (length bytes) = NativeLib.expectedLength width height /\
     (Jni.GetByteArrayElements_fails env = true \/
      Jni.GetByteArrayElements_fails env = false /\
      Jni.NewByteArray_fails env = true /\
      exists outputMat,
        NativeLib.transform cv applyEdgeDetection
          (Cv.Mat_over height width Cv.CV_8UC4 bytes) = Cv.Ok outputMat)).
Proof.
  split.
  - intros [w' Hnull].
    paths cv long_bits env imageData width height applyEdgeDetection w;
      rewrite Hcall in Hnull; try discriminate; exists bytes;
      (split; [exact Hlive |]); eauto 10.
  - intros (bytes' & Hlive' & Hwhy).
    paths cv long_bits env imageData width height applyEdgeDetection w;
      rewrite Hcall; eauto; exfalso.
    all: try congruence.
    all: rewrite Hlive in Hlive'; injection Hlive' as <-.
    all: destruct Hwhy as [? | [_ [? | (_ & ? & m & ?)]]]; congruence.
Qed.

(** The red frame declared as 3x3, and as 4x4 when [NewByteArray] fails. *)
Lemma returns_null_iff_witness :
  (exists w',
      NativeLib.processFrameBytes RefCv.library 64 quiet_env 0%nat 3 3 true
        (initial_world [red_4x4]) = Return None w') /\
  (exists w',
      NativeLib.processFrameBytes RefCv.library 64
        (Jni.mkEnv 0 0 false true) 0%nat 4 4 false
        (initial_world [red_4x4]) = Return None w').
Proof.
  split.
  - apply (proj2 (returns_null_iff RefCv.library 64 quiet_env 0%nat 3 3 true
                    (initial_world [red_4x4]))).
    exists red_4x4. split; [reflexivity |]. left. vm_compute. discriminate.
  - apply (proj2 (returns_null_iff RefCv.library 64
                    (Jni.mkEnv 0 0 false true) 0%nat 4 4 false
                    (initial_world [red_4x4]))).
    exists red_4x4. split; [reflexivity |]. right.
    split; [reflexivity |]. right. repeat split. eexists. reflexivity.
Defined.

(** X7.  [processFrameBytes] returns an array exactly when the length is
    accepted, both allocations succeed, the transform succeeds and
    [outputMat] holds at least [width * height * 4] bytes; the array is then
    the newest of the heap and holds the first [width * height * 4] bytes of
    [outputMat]. *)
Theorem returns_array_iff cv long_bits env imageData width height
    applyEdgeDetection w (outputArray : Jni.jbyteArray) w' :
  NativeLib.processFrameBytes cv long_bits env imageData width height
    applyEdgeDetection w = Return (Some outputArray) w'
  <->
  exists (bytes : list byte) outputMat,
    heap w !! imageData = Some bytes /\
    Z.of_nat (length bytes) = NativeLib.expectedLength width height /\
    allocations_succeed env /\
    NativeLib.transform cv applyEdgeDetection
      (Cv.Mat_over height width Cv.CV_8UC4 bytes) = Cv.Ok outputMat /\
    NativeLib.expectedLength width height
      <= Z.of_nat (length (Cv.data outputMat)) /\
    outputArray = length (heap w) /\
    heap w' = heap w ++ [take (Z.to_nat (NativeLib.expectedLength width
                                            height))
                           (Cv.data outputMat)] /\
    w' = completed_world long_bits env applyEdgeDetection width height
           outputMat w.
Proof.
  split.
  - intros Harr.
    paths cv long_bits env imageData width height applyEdgeDetection w;
      rewrite Hcall in Harr; try discriminate.
    injection Harr as <- <-. exists bytes, outputMat.
    unfold allocations_succeed. repeat split; assumption || reflexivity.
  - intros (bytes & outputMat & Hlive & Hlen & [Helems Hnew] & Htr & Hbuf
            & -> & _ & ->).
    now apply processFrameBytes_completes with (bytes := bytes).
Qed.

Lemma returns_array_iff_witness :
  exists w',
    NativeLib.processFrameBytes RefCv.library 64 quiet_env 0%nat 4 4 false
      (initial_world [red_4x4]) = Return (Some 1%nat) w' /\
    heap w' = [red_4x4; red_4x4].
Proof.
  eexists. split.
  - apply (proj2 (returns_array_iff RefCv.library 64 quiet_env 0%nat 4 4
                    false (initial_world [red_4x4]) 1%nat _)).
    exists red_4x4, (Cv.Mat_over 4 4 Cv.CV_8UC4 red_4x4).
    repeat split; reflexivity.
  - reflexivity.
Defined.

(** X14.  Every [nullptr] return is logged: the last line written by a call
    that returns [nullptr] is an error line and the lines before it are
    informational.  A call that returns an array writes no error line, and
    its last line reports exactly the time that [getProcessingTime] will
    answer. *)
Theorem failures_are_logged cv long_bits env imageData width height
    applyEdgeDetection w :
  let call :=
    NativeLib.processFrameBytes cv long_bits env imageData width height
      applyEdgeDetection w in
  (forall w', call = Return None w' ->
     exists before m,
       logcat w' = logcat w ++ before ++ [LOGE m] /\
       forallb is_info before = true) /\
  (forall (outputArray : Jni.jbyteArray) w',
     call = Return (Some outputArray) w' ->
     exists before,
       logcat w' = logcat w ++ before
                   ++ [LOGI (MsgFrameProcessed
                               (fst (NativeLib.getProcessingTime w')))] /\
       forallb is_info before = true).
Proof.
  intros call. subst call. split.
  - intros w' Hnull.
    paths cv long_bits env imageData width height applyEdgeDetection w;
      rewrite Hcall in Hnull; try discriminate; injection Hnull as <-.
    + exists [], (MsgLengthMismatch (NativeLib.expectedLength width height)
                    (Z.of_nat (length bytes))). now split.
    + exists [], MsgGetElementsFailed. now split.
    + eexists _, MsgCreateOutputFailed. split; [reflexivity |].
      now destruct applyEdgeDetection.
  - intros outputArray w' Harr.
    paths cv long_bits env imageData width height applyEdgeDetection w;
      rewrite Hcall in Harr; try discriminate; injection Harr as <- <-.
    eexists. split; [reflexivity |]. now destruct applyEdgeDetection.
Qed.

Lemma failures_are_logged_witness :
  exists w',
    NativeLib.processFrameBytes RefCv.library 64 quiet_env 0%nat 3 3 true
      (initial_world [red_4x4]) = Return None w' /\
    exists before m,
      logcat w' = [] ++ before ++ [LOGE m] /\ forallb is_info before = true.
Proof.
  eexists. split; [vm_compute; reflexivity |].
  refine (proj1 (failures_are_logged RefCv.library 64 quiet_env 0%nat 3 3
                   true (initial_world [red_4x4])) _ _).
  vm_compute. reflexivity.
Defined.

(** ** What a returned array is *)

(** X3.  The array returned by [processFrameBytes] has exactly the 32-bit
    [width * height * 4] bytes, whatever the library computed and whatever
    the dimensions were; handed back with the same dimensions it is
    therefore never rejected by STEP 1. *)
Theorem returned_array_passes_step1 cv long_bits env imageData width height
    applyEdgeDetection w (outputArray : Jni.jbyteArray) w' :
  NativeLib.processFrameBytes cv long_bits env imageData width height
    applyEdgeDetection w = Return (Some outputArray) w' ->
  (exists output : list byte,
      heap w' !! outputArray = Some output /\
      Z.of_nat (length output) = NativeLib.expectedLength width height) /\
  (forall cv2 long_bits2 env2 applyEdgeDetection2,
      NativeLib.processFrameBytes cv2 long_bits2 env2 outputArray width
        height applyEdgeDetection2 w'
      = NativeLib.processAcceptedFrame cv2 long_bits2 env2 outputArray width
          height applyEdgeDetection2 w').
Proof.
  intros Harr.
  apply returned_array_world in Harr
    as (bytes & outputMat & Hlive & Hlen & _ & Hbuf & -> & ->).
  assert (Hout : heap (completed_world long_bits env applyEdgeDetection
                         width height outputMat w) !! length (heap w)
                 = Some (take (Z.to_nat (NativeLib.expectedLength width
                                           height))
                           (Cv.data outputMat)))
    by (cbn; now apply list_lookup_middle).
  assert (Hsize : Z.of_nat (length (take (Z.to_nat (NativeLib.expectedLength
                                                      width height))
                                      (Cv.data outputMat)))
                  = NativeLib.expectedLength width height)
    by (rewrite length_take; lia).
  split; [eauto |].
  intros cv2 long_bits2 env2 applyEdgeDetection2.
  now apply step1_accepts with (1 := Hout).
Qed.

(** The red frame through the recipe, then handed back as it is. *)
Lemma returned_array_passes_step1_witness :
  exists w',
    NativeLib.processFrameBytes RefCv.library 64 quiet_env 0%nat 4 4 true
      (initial_world [red_4x4]) = Return (Some 1%nat) w' /\
    NativeLib.processFrameBytes RefCv.library 64 quiet_env 1%nat 4 4 false w'
    = NativeLib.processAcceptedFrame RefCv.library 64 quiet_env 1%nat 4 4
        false w'.
Proof.
  eexists. split; [vm_compute; reflexivity |].
  refine (proj2 (returned_array_passes_step1 RefCv.library 64 quiet_env
                   0%nat 4 4 true (initial_world [red_4x4]) 1%nat _ _)
            RefCv.library 64 quiet_env false).
  vm_compute. reflexivity.
Defined.

(** X4.  A call that returns an array stores the milliseconds of the 64-bit
    difference of its two clock readings, rounded toward zero and reduced to
    the width of [long]; with a steady clock and a time that fits, the
    stored value [t] is the elapsed time rounded down to whole
    milliseconds, and that is what [getProcessingTime] answers next. *)
Theorem completed_call_stores_elapsed_ms cv long_bits env imageData width
    height applyEdgeDetection w (outputArray : Jni.jbyteArray) w' :
  NativeLib.processFrameBytes cv long_bits env imageData width height
    applyEdgeDetection w = Return (Some outputArray) w' ->
  let elapsed := Int.sub64 (Jni.now_end env) (Jni.now_start env) in
  let t := fst (NativeLib.getProcessingTime w') in
  t = Int.wrap long_bits (Z.quot elapsed 1000000) /\
  (0 < long_bits -> steady_clock long_bits env ->
   0 <= t /\
   t * 1000000 <= Jni.now_end env - Jni.now_start env < (t + 1) * 1000000).
Proof.
  intros Harr elapsed t.
  apply returned_array_world in Harr
    as (_ & outputMat & _ & _ & _ & _ & _ & ->).
  subst t elapsed. cbn [fst NativeLib.getProcessingTime lastProcessingTime
                         completed_world].
  unfold duration_cast_ms. split; [reflexivity |].
  intros Hbits [Hsteady Hfits]. unfold duration_cast_ms in Hfits.
  unfold Int.sub64. rewrite (wrap_in_range 64) by (unfold Int.in_range; lia).
  set (elapsed := Jni.now_end env - Jni.now_start env) in *.
  rewrite wrap_in_range; [| exact Hbits |].
  - rewrite Z.quot_div_nonneg by lia.
    pose proof (Z.div_mod elapsed 1000000 ltac:(lia)) as Hdm.
    pose proof (Z.mod_pos_bound elapsed 1000000 ltac:(lia)) as Hmod.
    pose proof (Z.div_pos elapsed 1000000 ltac:(lia) ltac:(lia)). lia.
  - unfold Int.in_range. split; [| exact Hfits].
    pose proof (Z.quot_pos elapsed 1000000 ltac:(lia) ltac:(lia)).
    pose proof (Z.pow_pos_nonneg 2 (long_bits - 1) ltac:(lia) ltac:(lia)).
    lia.
Qed.

(** A call that lasts 7.5 ms stores 7. *)
Lemma completed_call_stores_elapsed_ms_witness :
  exists w',
    NativeLib.processFrameBytes RefCv.library 64 quiet_env 0%nat 4 4 false
      (initial_world [red_4x4]) = Return (Some 1%nat) w' /\
    fst (NativeLib.getProcessingTime w') = 7.
Proof.
  eexists. split; [vm_compute; reflexivity |].
  refine (eq_trans
            (proj1 (completed_call_stores_elapsed_ms RefCv.library 64
                      quiet_env 0%nat 4 4 false (initial_world [red_4x4])
                      1%nat _ _)) _).
  - vm_compute. reflexivity.
  - reflexivity.
Defined.

(** ** Dimensions at the edges *)

(** X8.  When the 32-bit product [width * height * 4] is negative, as it is
    for dimensions of opposite signs that do not overflow, no buffer has
    that length: every call with such dimensions returns [nullptr] at STEP 1
    and changes nothing but the log. *)
Theorem negative_product_is_always_rejected cv long_bits env imageData width
    height applyEdgeDetection w (bytes : list byte) :
  heap w !! imageData = Some bytes ->
  NativeLib.expectedLength width height < 0 \/
  - 2 ^ 31 <= width * height * 4 < 0 ->
  exists w',
    NativeLib.processFrameBytes cv long_bits env imageData width height
      applyEdgeDetection w = Return None w' /\
    heap w' = heap w /\ lastProcessingTime w' = lastProcessingTime w.
Proof.
  intros Hlive Hneg.
  assert (Hexp : NativeLib.expectedLength width height < 0).
  { destruct Hneg as [H | H]; [exact H |].
    rewrite expectedLength_wrap, wrap32_in_range; lia. }
  eexists. split.
  - apply step1_rejects with (bytes := bytes); [exact Hlive | lia].
  - split; reflexivity.
Qed.

(** A 4-byte buffer declared as -1 x 1. *)
Lemma negative_product_is_always_rejected_witness :
  exists w',
    NativeLib.processFrameBytes RefCv.library 64 quiet_env 0%nat (-1) 1
      false (initial_world [red_pixel]) = Return None w' /\
    heap w' = [red_pixel] /\ lastProcessingTime w' = 0.
Proof.
  apply (negative_product_is_always_rejected RefCv.library 64 quiet_env
           0%nat (-1) 1 false (initial_world [red_pixel]) red_pixel).
  - reflexivity.
  - right. lia.
Defined.

(** X10.  STEP 1 cannot tell dimensions that differ by a multiple of 2^30:
    the 32-bit product is the same, so a buffer accepted for [width] and
    [height] is accepted for [width + k * 2^30] and for
    [height + k * 2^30] as well. *)
Theorem dimensions_alias_modulo_2_30 width height k :
  NativeLib.expectedLength (width + k * 2 ^ 30) height
  = NativeLib.expectedLength width height /\
  NativeLib.expectedLength width (height + k * 2 ^ 30)
  = NativeLib.expectedLength width height /\
  (forall cv long_bits env imageData applyEdgeDetection w
          (bytes : list byte),
      heap w !! imageData = Some bytes ->
      Z.of_nat (length bytes) = NativeLib.expectedLength width height ->
      NativeLib.processFrameBytes cv long_bits env imageData
        (width + k * 2 ^ 30) height applyEdgeDetection w
      = NativeLib.processAcceptedFrame cv long_bits env imageData
          (width + k * 2 ^ 30) height applyEdgeDetection w).
Proof.
  assert (Hw : NativeLib.expectedLength (width + k * 2 ^ 30) height
               = NativeLib.expectedLength width height).
  { rewrite !expectedLength_wrap. unfold Int.wrap32, Int.wrap. f_equal.
    replace ((width + k * 2 ^ 30) * height * 4 + 2 ^ (32 - 1))
      with (width * height * 4 + 2 ^ (32 - 1) + (k * height) * 2 ^ 32)
      by (change (2 ^ 32) with (4 * 2 ^ 30); ring).
    apply Z_mod_plus_full. }
  assert (Hh : NativeLib.expectedLength width (height + k * 2 ^ 30)
               = NativeLib.expectedLength width height).
  { rewrite !expectedLength_wrap. unfold Int.wrap32, Int.wrap. f_equal.
    replace (width * (height + k * 2 ^ 30) * 4 + 2 ^ (32 - 1))
      with (width * height * 4 + 2 ^ (32 - 1) + (k * width) * 2 ^ 32)
      by (change (2 ^ 32) with (4 * 2 ^ 30); ring).
    apply Z_mod_plus_full. }
  repeat split; try assumption.
  intros cv long_bits env imageData applyEdgeDetection w bytes Hlive Hlen.
  apply step1_accepts with (bytes := bytes); [exact Hlive |].
  now rewrite Hw.
Qed.

(** The 4x4 red frame declared 1073741828 wide. *)
Lemma dimensions_alias_modulo_2_30_witness :
  NativeLib.processFrameBytes RefCv.library 64 quiet_env 0%nat
    (4 + 1 * 2 ^ 30) 4 true (initial_world [red_4x4])
  = NativeLib.processAcceptedFrame RefCv.library 64 quiet_env 0%nat
      (4 + 1 * 2 ^ 30) 4 true (initial_world [red_4x4]).
Proof.
  apply (proj2 (proj2 (dimensions_alias_modulo_2_30 4 4 1)) RefCv.library 64
           quiet_env 0%nat true (initial_world [red_4x4]) red_4x4);
    reflexivity.
Defined.

(** X11.  A frame of no pixels: when the 32-bit product is 0 and the buffer
    is empty, a call whose transform does not throw and whose allocations
    succeed returns a new, empty array, whatever image the library handed
    back. *)
Theorem empty_frame_gives_empty_array cv long_bits env imageData width height
    applyEdgeDetection w outputMat :
  heap w !! imageData = Some [] ->
  NativeLib.expectedLength width height = 0 ->
  allocations_succeed env ->
  NativeLib.transform cv applyEdgeDetection
    (Cv.Mat_over height width Cv.CV_8UC4 []) = Cv.Ok outputMat ->
  exists w',
    NativeLib.processFrameBytes cv long_bits env imageData width height
      applyEdgeDetection w = Return (Some (length (heap w))) w' /\
    heap w' = heap w ++ [[]].
Proof.
  intros Hlive Hzero [Helems Hnew] Htr. eexists. split.
  - apply processFrameBytes_completes with (bytes := []);
      try eassumption; rewrite Hzero; cbn; lia.
  - cbn. now rewrite Hzero.
Qed.

(** Passthrough of the empty buffer declared as 0 x 5. *)
Lemma empty_frame_gives_empty_array_witness :
  exists w',
    NativeLib.processFrameBytes RefCv.library 64 quiet_env 0%nat 0 5 false
      (initial_world [[]]) = Return (Some 1%nat) w' /\
    heap w' = [[]; []].
Proof.
  apply (empty_frame_gives_empty_array RefCv.library 64 quiet_env 0%nat 0 5
           false (initial_world [[]]) (Cv.Mat_over 5 0 Cv.CV_8UC4 []));
    repeat split; reflexivity.
Defined.

Lemma valid_frame_swap w imageData width height (bytes : list byte) :
  valid_frame w imageData width height bytes ->
  valid_frame w imageData height width bytes.
Proof.
  intros (Hlive & Hw & Hh & Hlen & Hjsize). repeat split; try assumption.
  lia.
Qed.

(** Passthrough of a valid frame, in the form the compositions below use. *)
Lemma passthrough_call cv long_bits env imageData width height w
    (bytes : list byte) :
  CvLaws.copyTo_copies cv ->
  valid_frame w imageData width height bytes ->
  let call :=
    NativeLib.processFrameBytes cv long_bits env imageData width height
      false w in
  (allocations_succeed env ->
   exists outputArray w', call = Return (Some outputArray) w') /\
  (forall (outputArray : Jni.jbyteArray) w',
      call = Return (Some outputArray) w' ->
      outputArray = length (heap w) /\ heap w' = heap w ++ [bytes]).
Proof.
  intros Hcopy Hvalid call.
  pose proof (valid_frame_expectedLength _ _ _ _ _ Hvalid) as Hexp.
  pose proof (valid_frame_well_formed _ _ _ _ _ Hvalid) as Hwf.
  destruct Hvalid as (Hlive & Hw & Hh & Hlen & Hjsize).
  destruct (call_with_transform cv long_bits env imageData width height
              false w bytes (Cv.Mat_over height width Cv.CV_8UC4 bytes)
              Hlive Hexp (Hcopy _ Hwf) ltac:(cbn; lia))
    as [(r & w' & Hcall & Hsome) Harray].
  split.
  - intros Halloc. destruct r as [outputArray |]; [eauto |].
    now contradiction (Hsome Halloc).
  - intros outputArray w'' Hcall'.
    destruct (Harray outputArray w'' Hcall') as [-> ->].
    split; [reflexivity |]. cbn [Cv.data Cv.Mat_over].
    rewrite take_ge by lia. reflexivity.
Qed.

(** X9.  Width and height can be swapped unnoticed: STEP 1 and STEP 6
    compute the same length for [height] x [width], and passthrough of a
    valid frame declared with swapped dimensions returns the same bytes. *)
Theorem swapped_dimensions_go_unnoticed cv long_bits env imageData width
    height w (bytes : list byte) :
  NativeLib.expectedLength height width
  = NativeLib.expectedLength width height /\
  (CvLaws.copyTo_copies cv ->
   valid_frame w imageData width height bytes ->
   let swapped :=
     NativeLib.processFrameBytes cv long_bits env imageData height width
       false w in
   (allocations_succeed env ->
    exists outputArray w', swapped = Return (Some outputArray) w') /\
   (forall (outputArray : Jni.jbyteArray) w',
       swapped = Return (Some outputArray) w' ->
       heap w' !! outputArray = Some bytes)).
Proof.
  split.
  - unfold NativeLib.expectedLength, Int.mul32.
    now rewrite (Z.mul_comm height).
  - intros Hcopy Hvalid swapped.
    destruct (passthrough_call cv long_bits env imageData height width w
                bytes Hcopy (valid_frame_swap _ _ _ _ _ Hvalid))
      as [Hreturns Harray].
    split; [exact Hreturns |].
    intros outputArray w' Hcall.
    destruct (Harray outputArray w' Hcall) as [-> ->].
    now apply list_lookup_middle.
Qed.

(** A 3x2 frame declared as 2x3. *)
Lemma swapped_dimensions_go_unnoticed_witness :
  let frame := concat (repeat red_pixel 6) in
  let swapped :=
    NativeLib.processFrameBytes RefCv.library 64 quiet_env 0%nat 2 3 false
      (initial_world [frame]) in
  (allocations_succeed quiet_env ->
   exists outputArray w', swapped = Return (Some outputArray) w') /\
  (forall (outputArray : Jni.jbyteArray) w',
      swapped = Return (Some outputArray) w' ->
      heap w' !! outputArray = Some frame).
Proof.
  apply (proj2 (swapped_dimensions_go_unnoticed RefCv.library 64 quiet_env
                  0%nat 3 2 (initial_world [concat (repeat red_pixel 6)])
                  (concat (repeat red_pixel 6)))).
  - exact ref_copyTo_copies.
  - repeat split; reflexivity.
Defined.

(** X15.  Passthrough composes: the array returned by a passthrough call on
    a valid frame is itself a valid frame of the same dimensions, and a
    second passthrough call on it returns a third array, distinct from both,
    with the same bytes, leaving the first two as they were. *)
Theorem passthrough_twice cv long_bits env1 env2 imageData width height w
    (bytes : list byte) (first : Jni.jbyteArray) w1 :
  CvLaws.copyTo_copies cv ->
  valid_frame w imageData width height bytes ->
  NativeLib.processFrameBytes cv long_bits env1 imageData width height
    false w = Return (Some first) w1 ->
  valid_frame w1 first width height bytes /\
  let again :=
    NativeLib.processFrameBytes cv long_bits env2 first width height
      false w1 in
  (allocations_succeed env2 ->
   exists second w2, again = Return (Some second) w2) /\
  (forall (second : Jni.jbyteArray) w2,
      again = Return (Some second) w2 ->
      second <> first /\ second <> imageData /\
      heap w2 !! second = Some bytes /\
      heap w2 !! first = Some bytes /\
      heap w2 !! imageData = Some bytes).
Proof.
  intros Hcopy Hvalid Hcall1.
  destruct (passthrough_call cv long_bits env1 imageData width height w
              bytes Hcopy Hvalid) as [_ Harray1].
  destruct (Harray1 first w1 Hcall1) as [-> Hheap1].
  assert (Hvalid1 : valid_frame w1 (length (heap w)) width height bytes).
  { destruct Hvalid as (Hlive & Hw & Hh & Hlen & Hjsize).
    repeat split; try assumption.
    rewrite Hheap1. now apply list_lookup_middle. }
  split; [exact Hvalid1 |].
  destruct (passthrough_call cv long_bits env2 (length (heap w)) width
              height w1 bytes Hcopy Hvalid1) as [Hreturns Harray2].
  split; [exact Hreturns |].
  intros second w2 Hcall2.
  destruct (Harray2 second w2 Hcall2) as [-> ->].
  destruct Hvalid as (Hlive & _).
  pose proof (lookup_lt_Some _ _ _ Hlive) as Hlt.
  rewrite Hheap1, length_app. cbn [length].
  repeat split; try lia.
  - apply list_lookup_middle. now rewrite length_app.
  - apply lookup_app_l_Some. now apply list_lookup_middle.
  - now do 2 apply lookup_app_l_Some.
Qed.

Lemma passthrough_twice_witness :
  exists w1,
    NativeLib.processFrameBytes RefCv.library 64 quiet_env 0%nat 4 4 false
      (initial_world [red_4x4]) = Return (Some 1%nat) w1 /\
    forall (second : Jni.jbyteArray) w2,
      NativeLib.processFrameBytes RefCv.library 64 quiet_env 1%nat 4 4
        false w1 = Return (Some second) w2 ->
      second <> 1%nat /\ second <> 0%nat /\
      heap w2 !! second = Some red_4x4 /\
      heap w2 !! 1%nat = Some red_4x4 /\
      heap w2 !! 0%nat = Some red_4x4.
Proof.
  eexists. split; [vm_compute; reflexivity |].
  refine (proj2 (proj2 (passthrough_twice RefCv.library 64 quiet_env
                          quiet_env 0%nat 4 4 (initial_world [red_4x4])
                          red_4x4 1%nat _ ref_copyTo_copies _ _))).
  - repeat split; reflexivity.
  - vm_compute. reflexivity.
Defined.

(** ** Sessions of native calls *)

Lemma run_app cv long_bits cs1 cs2 w :
  run cv long_bits (cs1 ++ cs2) w
  = match run cv long_bits cs1 w with
    | Some w1 => run cv long_bits cs2 w1
    | None => None
    end.
Proof.
  revert w. induction cs1 as [| c cs1 IH]; intros w; cbn; [reflexivity |].
  destruct (exec cv long_bits c w); [apply IH | reflexivity].
Qed.




(** The version query, the availability query, the time query and the
    legacy entry point: one call. *)
Lemma exec_query cv long_bits c w :
  is_frame_call c = false ->
  exists w' new made,
    exec cv long_bits c w = Some w' /\
    heap w' = heap w /\ lastProcessingTime w' = lastProcessingTime w /\
    logcat w' = logcat w ++ new /\ forallb is_info new = true /\
    jstrings w' = jstrings w ++ made /\
    Forall (eq (Cv.CV_VERSION cv)) made.
Proof.
  intros Hquery.
  destruct c
    as [[|] | | | env imageData width height applyEdgeDetection | b1 b2];
    try discriminate; cbn.
  - eexists _, [_], []. rewrite app_nil_r. repeat split. constructor.
  - eexists _, [_], [_]. repeat split. repeat constructor.
  - exists w, [], []. rewrite !app_nil_r. repeat split. constructor.
  - exists w, [], []. rewrite !app_nil_r. repeat split. constructor.
  - eexists _, [_], []. rewrite app_nil_r. repeat split. constructor.
Qed.

(** Queries in sequence keep the stored time. *)
Lemma exec_queries_keep cv long_bits cs w :
  forallb (fun c => negb (is_frame_call c)) cs = true ->
  exists w',
    run cv long_bits cs w = Some w' /\
    lastProcessingTime w' = lastProcessingTime w.
Proof.
  revert w. induction cs as [| c cs IH]; intros w Hqueries.
  - now exists w.
  - cbn in Hqueries. apply andb_prop in Hqueries as [Hc Hcs].
    apply negb_true_iff in Hc.
    destruct (exec_query cv long_bits c w Hc)
      as (v & n1 & m1 & Hexec & _ & Htime & _).
    destruct (IH v Hcs) as (w' & Hrun & Htime').
    exists w'. cbn [run]. rewrite Hexec. split; [exact Hrun | congruence].
Qed.

(** X13.  The version query logs the version and answers a new Java string
    holding [CV_VERSION] when [NewStringUTF] succeeds, and the null
    reference, with no string created, when it does not.  The version,
    availability and time queries and the legacy bitmap entry point, in any
    number and order, whatever handles are passed and whether or not the
    string allocations succeed, leave the byte arrays and the stored
    processing time as they were; all they write is informational log
    lines and all they create is strings holding the version. *)
Theorem queries_keep_arrays_and_time cv long_bits :
  (forall NewStringUTF_fails w,
      let answer := fst (NativeLib.getOpenCVVersion cv NewStringUTF_fails w) in
      let w' := snd (NativeLib.getOpenCVVersion cv NewStringUTF_fails w) in
      logcat w' = logcat w ++ [LOGI (MsgOpenCVVersion (Cv.CV_VERSION cv))] /\
      match answer with
      | Some s =>
        NewStringUTF_fails = false /\ jstrings w !! s = None /\
        jstrings w' = jstrings w ++ [Cv.CV_VERSION cv] /\
        jstrings w' !! s = Some (Cv.CV_VERSION cv)
      | None => NewStringUTF_fails = true /\ jstrings w' = jstrings w
      end) /\
  (forall cs w,
      forallb (fun c => negb (is_frame_call c)) cs = true ->
      exists w' new made,
        run cv long_bits cs w = Some w' /\
        heap w' = heap w /\
        fst (NativeLib.getProcessingTime w')
        = fst (NativeLib.getProcessingTime w) /\
        logcat w' = logcat w ++ new /\ forallb is_info new = true /\
        jstrings w' = jstrings w ++ made /\
        Forall (eq (Cv.CV_VERSION cv)) made).
Proof.
  split.
  - intros [|] w; cbn; repeat split.
    + apply lookup_ge_None_2. lia.
    + apply list_lookup_middle. reflexivity.
  - intros cs. induction cs as [| c cs IH]; intros w Hqueries.
    + exists w, [], []. rewrite !app_nil_r. repeat split. constructor.
    + cbn in Hqueries. apply andb_prop in Hqueries as [Hc Hcs].
      apply negb_true_iff in Hc.
      destruct (exec_query cv long_bits c w Hc)
        as (v & n1 & m1 & Hexec & Hheap & Htime & Hlog & Hinfo & Hstr & Hver).
      destruct (IH v Hcs)
        as (w' & n2 & m2 & Hrun & Hheap' & Htime' & Hlog' & Hinfo' & Hstr'
            & Hver').
      exists w', (n1 ++ n2), (m1 ++ m2). cbn [run]. rewrite Hexec.
      cbn in Htime' |- *.
      rewrite Hheap', Htime', Hlog', Hstr', Hheap, Htime, Hlog, Hstr,
        <- !app_assoc.
      repeat split; try assumption.
      * rewrite forallb_app. now rewrite Hinfo, Hinfo'.
      * apply Forall_app. now split.
Qed.

(** Over [query_session], one of whose two version queries gets no
    string. *)
Lemma queries_keep_arrays_and_time_witness :
  exists w' new made,
    run RefCv.library 64 query_session (initial_world [red_4x4]) = Some w' /\
    heap w' = [red_4x4] /\
    fst (NativeLib.getProcessingTime w') = 0 /\
    logcat w' = [] ++ new /\ forallb is_info new = true /\
    jstrings w' = [] ++ made /\
    Forall (eq (Cv.CV_VERSION RefCv.library)) made.
Proof.
  apply (proj2 (queries_keep_arrays_and_time RefCv.library 64) query_session
           (initial_world [red_4x4])).
  reflexivity.
Defined.

(** X16.  The stored time is that of the last frame call that returned an
    array: after such a call, any number of queries and legacy calls later,
    [getProcessingTime] still answers the value that call stored, the
    milliseconds of the 64-bit difference of its clock readings. *)
Theorem time_of_last_frame_survives_queries cv long_bits before env
    imageData width height applyEdgeDetection queries w w1
    (outputArray : Jni.jbyteArray) w2 :
  run cv long_bits before w = Some w1 ->
  NativeLib.processFrameBytes cv long_bits env imageData width height
    applyEdgeDetection w1 = Return (Some outputArray) w2 ->
  forallb (fun c => negb (is_frame_call c)) queries = true ->
  exists w',
    run cv long_bits
      (before
       ++ [Call_processFrameBytes env imageData width height
             applyEdgeDetection]
       ++ queries) w = Some w' /\
    fst (NativeLib.getProcessingTime w')
    = fst (NativeLib.getProcessingTime w2) /\
    fst (NativeLib.getProcessingTime w')
    = Int.wrap long_bits
        (Z.quot (Int.sub64 (Jni.now_end env) (Jni.now_start env)) 1000000).
Proof.
  intros Hbefore Hframe Hqueries.
  destruct (exec_queries_keep cv long_bits queries w2 Hqueries)
    as (w' & Hrun & Htime).
  exists w'. rewrite run_app, Hbefore, run_app.
  cbn [run exec].
  rewrite Hframe. split; [exact Hrun |].
  cbn [fst NativeLib.getProcessingTime]. rewrite Htime.
  split; [reflexivity |].
  apply returned_array_world in Hframe
    as (_ & outputMat & _ & _ & _ & _ & _ & ->).
  reflexivity.
Qed.

(** The red frame processed, then the queries of [query_session]. *)
Lemma time_of_last_frame_survives_queries_witness :
  exists w',
    run RefCv.library 64
      ([Call_getOpenCVVersion false]
       ++ [Call_processFrameBytes quiet_env 0%nat 4 4 true]
       ++ query_session) (initial_world [red_4x4]) = Some w' /\
    fst (NativeLib.getProcessingTime w') = 7.
Proof.
  edestruct (time_of_last_frame_survives_queries RefCv.library 64
               [Call_getOpenCVVersion false] quiet_env 0%nat 4 4 true
               query_session (initial_world [red_4x4]))
    as (w' & Hrun & _ & Htime).
  - vm_compute. reflexivity.
  - vm_compute. reflexivity.
  - reflexivity.
  - exists w'. split; [exact Hrun |]. rewrite Htime. reflexivity.
Defined.
